(** * ONLINE-BOARD: content screening, sanitising, notice lifecycle

    A shallow embedding of the notice-board application's logic:

    - [Js]          the JavaScript string primitives the code relies on
                    ([toLowerCase], [includes], [trim], [split], [join],
                    [RegExp.prototype.test] with its [lastIndex] cell);
    - [Moderation]  [moderateContent] and [sanitizeContent]
                    (src/lib/contentModeration.ts);
    - [ViewTracker] [trackNoticeViews] (src/pages/PublicNotices.tsx);
    - [Lifecycle]   [handleApprove] / [handleReject] of the notice card;
    - [CreateNotice] [handleSubmit] of the creation dialog;
    - [RoleStore]   the [handle_new_user] trigger of the migrations;
    - [Upload]      [uploadFile] (src/hooks/useFileUpload.ts);
    - [Search], [Deletion], [Audit], [RoleDialog], [Dialog]
                    the search filter, [handleDelete], the audit
                    triggers, the role dialog and the upload dialog.

    The tables, triggers and row-level security policies are those the
    migrations leave in place, read together: a policy that a later
    migration drops and creates anew is modelled as created anew.

    Strings are sequences of UTF-16 code units in the source.  Here a
    string is a [string] of 8-bit characters, read as the code units
    U+0000 .. U+00FF; every primitive below is exact on that range.
    Calls to the hosted services (database, storage, identity) are
    modelled by explicit state passing, the service's answer being an
    argument of the operation. *)

From Stdlib Require Import Ascii.
From stdpp Require Import gmap strings list.

(* ===================================================================== *)
(** ** JavaScript string primitives                                       *)
(* ===================================================================== *)

Module Js.

Definition code (c : ascii) : nat := nat_of_ascii c.

Definition between (lo hi : nat) (c : ascii) : bool :=
  (lo <=? code c) && (code c <=? hi).

(** [A-Z] *)
Definition isUpperAZ (c : ascii) : bool := between 65 90 c.

(** Uppercase letters of the Latin-1 supplement: U+00C0 .. U+00DE
    without the multiplication sign U+00D7. *)
Definition isUpperLatin1 (c : ascii) : bool :=
  between 192 222 c && negb (code c =? 215).

(** [String.prototype.toLowerCase], one code unit below U+0100. *)
Definition toLowerChar (c : ascii) : ascii :=
  if isUpperAZ c || isUpperLatin1 c then ascii_of_nat (code c + 32) else c.

(** [String.prototype.toLowerCase] on a string of code units below
    U+0100, where it maps each code unit on its own.  The mappings that
    look at the context, change the length or lead into this range
    start from code units above U+00FF (U+03A3 with Final_Sigma, U+0130,
    U+212A to [k]); what is proved of [toLowerCase] is proved of texts
    below U+0100 only. *)
Fixpoint toLowerCase (s : string) : string :=
  match s with
  | EmptyString => EmptyString
  | String c s' => String (toLowerChar c) (toLowerCase s')
  end.

(** White space and line terminators, as matched by [\s] and removed by
    [trim]: TAB, LF, VT, FF, CR, SP and NBSP below U+0100. *)
Definition isWhiteSpace (c : ascii) : bool :=
  between 9 13 c || (code c =? 32) || (code c =? 160).

(** [\d] *)
Definition isDigit (c : ascii) : bool := between 48 57 c.

(** [\w] is [A-Za-z0-9_]. *)
Definition isWordChar (c : ascii) : bool :=
  isUpperAZ c || between 97 122 c || isDigit c || (code c =? 95).

(** [s.startsWith(p)] *)
Fixpoint startsWith (s p : string) {struct p} : bool :=
  match p, s with
  | EmptyString, _ => true
  | String a p', String b s' => if Ascii.eqb a b then startsWith s' p' else false
  | String _ _, EmptyString => false
  end.

(** [s.includes(sub)] *)
Fixpoint includes (s sub : string) : bool :=
  if startsWith s sub then true
  else match s with
       | EmptyString => false
       | String _ s' => includes s' sub
       end.

(** [l.join(sep)] *)
Fixpoint join (sep : string) (l : list string) : string :=
  match l with
  | [] => EmptyString
  | [x] => x
  | x :: l' => x +:+ sep +:+ join sep l'
  end.

(** [s.trimStart()], [s.trimEnd()] and [s.trim()] *)
Fixpoint trimStart (s : string) : string :=
  match s with
  | EmptyString => EmptyString
  | String c s' => if isWhiteSpace c then trimStart s' else s
  end.

Fixpoint trimEnd (s : string) : string :=
  match s with
  | EmptyString => EmptyString
  | String c s' =>
      match trimEnd s' with
      | EmptyString => if isWhiteSpace c then EmptyString else String c EmptyString
      | r => String c r
      end
  end.

Definition trim (s : string) : string := trimEnd (trimStart s).

(** [s.split(/\s+/)]: the pieces between maximal runs of white space;
    a run at either end leaves an empty piece there.  [cur] is the piece
    being read, [inRun] tells that the previous code unit was white
    space. *)
Fixpoint splitWs (cur : string) (inRun : bool) (s : string) : list string :=
  match s with
  | EmptyString => [cur]
  | String c s' =>
      if isWhiteSpace c then
        if inRun then splitWs EmptyString true s'
        else cur :: splitWs EmptyString true s'
      else splitWs (cur +:+ String c EmptyString) false s'
  end.

Definition split_ws (s : string) : list string := splitWs EmptyString false s.

(** *** Regular expressions

    A pattern is embedded as the function that tries it at one position:
    given the code unit before the position (for [\b]) and the text from
    the position on, it returns the length of the match.  None of the
    patterns of this program matches the empty string. *)
Definition Matcher : Type := option ascii -> string -> option nat.

Fixpoint countWhile (p : ascii -> bool) (s : string) : nat :=
  match s with
  | String c s' => if p c then S (countWhile p s') else 0
  | EmptyString => 0
  end.

Fixpoint dropWhile (p : ascii -> bool) (s : string) : string :=
  match s with
  | String c s' => if p c then dropWhile p s' else s
  | EmptyString => EmptyString
  end.

Fixpoint drop (n : nat) (s : string) : string :=
  match n, s with
  | S n', String _ s' => drop n' s'
  | _, _ => s
  end.

(** Canonicalisation of the [i] flag (no [u] flag): a code unit below
    U+0080 is matched by its two ASCII cases only. *)
Definition canonicalize (c : ascii) : ascii :=
  if between 97 122 c then ascii_of_nat (code c - 32) else c.

Definition eqIgnoreCase (a b : ascii) : bool :=
  Ascii.eqb (canonicalize a) (canonicalize b).

(** A literal under the [i] flag: the rest of the text after it. *)
Fixpoint literalCI (p s : string) {struct p} : option string :=
  match p, s with
  | EmptyString, _ => Some s
  | String a p', String b s' => if eqIgnoreCase a b then literalCI p' s' else None
  | String _ _, EmptyString => None
  end.

(** The state of a global ([g]) RegExp object is its [lastIndex].
    [exec m prev s pos]: first match at or after position [pos], where
    [s] is the text from [pos] on; the result is the end of the match. *)
Fixpoint exec (m : Matcher) (prev : option ascii) (s : string) (pos : nat) : option nat :=
  match m prev s with
  | Some len => Some (pos + len)
  | None =>
      match s with
      | EmptyString => None
      | String c s' => exec m (Some c) s' (S pos)
      end
  end.

(** The text from position [n] on, with the code unit before it;
    [None] when [n] is beyond the end. *)
Fixpoint seek (prev : option ascii) (s : string) (n : nat) : option (option ascii * string) :=
  match n, s with
  | 0, _ => Some (prev, s)
  | S n', String c s' => seek (Some c) s' n'
  | S _, EmptyString => None
  end.

(** [pattern.test(s)] for a pattern with the [g] flag: the search starts
    at [lastIndex]; a match moves [lastIndex] to its end, a failure
    resets it to 0.  Returns the answer and the new [lastIndex]. *)
Definition test (m : Matcher) (lastIndex : nat) (s : string) : bool * nat :=
  match seek None s lastIndex with
  | None => (false, 0)
  | Some (prev, rest) =>
      match exec m prev rest lastIndex with
      | Some e => (true, e)
      | None => (false, 0)
      end
  end.

(** [s.replace(pattern, repl)] for a pattern with the [g] flag: every
    match, left to right, is replaced; the scan resumes after the match.
    [skip] counts the code units of the current match still to pass. *)
Fixpoint replaceAll (m : Matcher) (repl : string) (skip : nat)
    (prev : option ascii) (s : string) : string :=
  match s with
  | EmptyString => EmptyString
  | String c s' =>
      match skip with
      | S k => replaceAll m repl k (Some c) s'
      | 0 =>
          match m prev s with
          | Some (S n) => repl +:+ replaceAll m repl n (Some c) s'
          | _ => String c (replaceAll m repl 0 (Some c) s')
          end
      end
  end.

Definition replace (m : Matcher) (repl : string) (s : string) : string :=
  replaceAll m repl 0 None s.

End Js.

(* ===================================================================== *)
(** ** Content screener and sanitizer (src/lib/contentModeration.ts)      *)
(* ===================================================================== *)

Module Moderation.
Import Js.

Definition LF : ascii := ascii_of_nat 10.
Definition CR : ascii := ascii_of_nat 13.

Definition BANNED_WORDS : list string :=
  ["inappropriate"; "offensive"; "spam"].

(** [/https?:\/\/[^\s]+/gi]: the tail [:\/\/[^\s]+] after [consumed]
    code units, then the two ways through [s?], the greedy one first. *)
Definition urlTail (consumed : nat) (s : string) : option nat :=
  match literalCI "://" s with
  | Some r =>
      let n := countWhile (fun c => negb (isWhiteSpace c)) r in
      if 1 <=? n then Some (consumed + 3 + n) else None
  | None => None
  end.

Definition matchUrl : Matcher := fun _ s =>
  match literalCI "http" s with
  | None => None
  | Some r =>
      match from_option (urlTail 5) None (literalCI "s" r) with
      | Some n => Some n
      | None => urlTail 4 r
      end
  end.

(** [\b]: exactly one side is a word character. *)
Definition isWordAt (c : option ascii) : bool := from_option isWordChar false c.

Definition wordBoundary (before after : option ascii) : bool :=
  xorb (isWordAt before) (isWordAt after).

(** [/\b\d{10,}\b/g]: [\d{10,}] is greedy; [longest k s] tries to end
    the digits after [k] of them, then backs off one digit at a time. *)
Fixpoint longest (k : nat) (s : string) : option nat :=
  if (10 <=? k) && wordBoundary (String.get (k - 1) s) (String.get k s)
  then Some k
  else match k with
       | 0 => None
       | S k' => longest k' s
       end.

Definition matchLongNumber : Matcher := fun prev s =>
  if wordBoundary prev (String.get 0 s)
  then longest (countWhile isDigit s) s
  else None.

(** [/[A-Z]{5,}/g] *)
Definition matchCaps : Matcher := fun _ s =>
  let n := countWhile isUpperAZ s in
  if 5 <=? n then Some n else None.

Definition SUSPICIOUS_PATTERNS : list Matcher :=
  [matchUrl; matchLongNumber; matchCaps].

Definition descriptions : list string :=
  ["Contains URLs"; "Contains long numbers"; "Contains excessive capitalization"].

(** The three RegExp objects are created once, when the module is
    loaded, and carry the [g] flag: their [lastIndex] cells live across
    calls.  [PatternState] gives the [lastIndex] of the pattern at each
    index of [SUSPICIOUS_PATTERNS]. *)
Definition PatternState : Type := nat -> nat.

Definition initialState : PatternState := fun _ => 0.

Definition setLastIndex (st : PatternState) (index v : nat) : PatternState :=
  fun i => if i =? index then v else st i.

Record Verdict : Type := mkVerdict {
  approved : bool;
  issues : list string;
  severity : string
}.

(** [foundBannedWords] *)
Definition foundBannedWords (combinedText : string) : list string :=
  List.filter (fun word => includes combinedText (toLowerCase word)) BANNED_WORDS.

Definition checkBannedWords (combinedText : string) (issues : list string) : list string :=
  let found := foundBannedWords combinedText in
  if 0 <? length found
  then issues ++ ["Contains banned words: " +:+ join ", " found]
  else issues.

(** [SUSPICIOUS_PATTERNS.forEach((pattern, index) => ...)] *)
Fixpoint forEachPattern (ps : list Matcher) (index : nat) (combinedText : string)
    (issues : list string) (st : PatternState) : list string * PatternState :=
  match ps with
  | [] => (issues, st)
  | pattern :: ps' =>
      let '(hit, li) := test pattern (st index) combinedText in
      forEachPattern ps' (S index) combinedText
        (if hit then issues ++ [nth index descriptions ""] else issues)
        (setLastIndex st index li)
  end.

Definition checkLength (content : string) (issues : list string) : list string :=
  let len := N.of_nat (String.length content) in
  let issues := if (len <? 10)%N
                then issues ++ ["Content is too short"] else issues in
  if (10000 <? len)%N
  then issues ++ ["Content is too long"] else issues.

Definition meaningfulWords (content : string) : list string :=
  List.filter (fun word => 2 <? String.length word) (split_ws content).

Definition checkMeaningful (content : string) (issues : list string) : list string :=
  if length (meaningfulWords content) <? 3
  then issues ++ ["Content appears to lack sufficient meaningful text"]
  else issues.

Definition severityOf (n : nat) : string :=
  if 2 <? n then "high" else if 0 <? n then "medium" else "low".

Definition moderateContent (st : PatternState) (title content : string)
    : Verdict * PatternState :=
  let combinedText := toLowerCase (title +:+ " " +:+ content) in
  let issues := checkBannedWords combinedText [] in
  let '(issues, st') := forEachPattern SUSPICIOUS_PATTERNS 0 combinedText issues st in
  let issues := checkLength content issues in
  let issues := checkMeaningful content issues in
  ({| approved := length issues =? 0;
      issues := issues;
      severity := severityOf (length issues) |}, st').

(** The patterns of [sanitizeContent]: [/\r\n/g], [/\r/g] and
    [/\n{3,}/g]. *)
Definition matchCRLF : Matcher := fun _ s =>
  if startsWith s (String CR (String LF EmptyString)) then Some 2 else None.

Definition matchCR : Matcher := fun _ s =>
  match s with
  | String c _ => if Ascii.eqb c CR then Some 1 else None
  | EmptyString => None
  end.

Definition isLF (c : ascii) : bool := Ascii.eqb c LF.

Definition matchBlankLines : Matcher := fun _ s =>
  let n := countWhile isLF s in
  if 3 <=? n then Some n else None.

Definition sLF : string := String LF EmptyString.

Definition sanitizeContent (content : string) : string :=
  trim
    (replace matchBlankLines (sLF +:+ sLF)
       (replace matchCR sLF
          (replace matchCRLF sLF content))).

End Moderation.

(* ===================================================================== *)
(** ** The relational schema (supabase/migrations)                        *)
(* ===================================================================== *)

Module Schema.

(** A [TIMESTAMPTZ] value, held as its ISO-8601 text. *)
Definition Timestamp : Type := string.

(** [status TEXT CHECK (status IN ('pending', 'approved', 'rejected'))] *)
Inductive Status : Type := Pending | Approved | Rejected.

(** [CREATE TYPE app_role AS ENUM ('admin', 'staff', 'student')] *)
Inductive app_role : Type := admin | staff | student.

Global Instance Status_eq_dec : EqDecision Status.
Proof. solve_decision. Defined.

Global Instance app_role_eq_dec : EqDecision app_role.
Proof. solve_decision. Defined.

(** A row of [notices]. *)
Record Notice : Type := mkNotice {
  id : string;
  title : string;
  content : string;
  category_id : option string;
  author_id : string;
  status : Status;
  priority : string;
  expires_at : option Timestamp;
  publish_at : option Timestamp;
  created_at : Timestamp;
  updated_at : Timestamp;
  approved_by : option string;
  approved_at : option Timestamp
}.

(** A row of [notice_attachments] (without its surrogate key). *)
Record AttachmentRow : Type := mkAttachmentRow {
  att_notice_id : string;
  file_name : string;
  file_url : string;
  file_type : string;
  mime_type : string;
  file_size : N
}.

(** A row of [notice_views] (without its surrogate key). *)
Record ViewEvent : Type := mkViewEvent {
  notice_id : string;
  user_id : option string;
  viewed_at : Timestamp
}.

(** A row of [profiles], keyed by its [id]. *)
Record Profile : Type := mkProfile {
  full_name : string;
  email : string
}.

(** The tables.  [notices] and [profiles] have a primary key and are
    maps from it; the others are read as bags of rows. *)
Record Database : Type := mkDatabase {
  notices : gmap string Notice;
  notice_attachments : list AttachmentRow;
  notice_views : list ViewEvent;
  profiles : gmap string Profile;
  user_roles : list (string * app_role)
}.

Definition emptyDatabase : Database :=
  {| notices := ∅; notice_attachments := []; notice_views := [];
     profiles := ∅; user_roles := [] |}.

(** [public.has_role(_user_id, _role)] *)
Definition has_role (db : Database) (_user_id : string) (_role : app_role) : bool :=
  existsb (fun r => bool_decide (r.1 = _user_id) && bool_decide (r.2 = _role))
    (user_roles db).

(** The error object of a failed request to the hosted service. *)
Record ServiceError : Type := mkServiceError {
  message : string;
  instanceofError : bool
}.

(** [error instanceof Error ? error.message : 'Unknown error'] *)
Definition describe (e : ServiceError) : string :=
  if instanceofError e then message e else "Unknown error".

(** [toast({ title, description, variant })] *)
Record Toast : Type := mkToast {
  toast_title : string;
  toast_description : string;
  destructive : bool
}.

Definition errorToast (e : ServiceError) : Toast :=
  {| toast_title := "Error"; toast_description := describe e; destructive := true |}.

End Schema.

(* ===================================================================== *)
(** ** View tracker (trackNoticeViews)                                    *)
(* ===================================================================== *)

Module ViewTracker.
Import Schema.

(** What the tracker touches: the [notice_views] table and the item
    ['viewed_notices'] of the tab's [sessionStorage], a JSON array of
    notice ids ([None]: the item is not set). *)
Record World : Type := mkWorld {
  db : Database;
  viewed_notices : option (list string)
}.

Definition insertViews (d : Database) (rows : list ViewEvent) : Database :=
  {| notices := notices d; notice_attachments := notice_attachments d;
     notice_views := notice_views d ++ rows;
     profiles := profiles d; user_roles := user_roles d |}.

(** [newViews]: [clock k] is the reading of [new Date()] for the k-th
    row; [viewer] is [null] on the public page and the signed-in user on
    the student dashboard. *)
Definition newViews (viewer : option string) (clock : nat -> Timestamp)
    (viewedIds : list string) (batch : list Notice) : list ViewEvent :=
  imap (fun k notice =>
          {| notice_id := id notice; user_id := viewer; viewed_at := clock k |})
       (List.filter (fun notice => negb (bool_decide (id notice ∈ viewedIds))) batch).

(** [insertError] is the answer of the database to the one bulk insert:
    [None] when the rows were stored, an error when none was. *)
Definition trackNoticeViews (viewer : option string) (clock : nat -> Timestamp)
    (insertError : option ServiceError) (batch : list Notice) (w : World) : World :=
  let viewedIds := default [] (viewed_notices w) in
  let rows := newViews viewer clock viewedIds batch in
  if 0 <? length rows then
    match insertError with
    | None =>
        {| db := insertViews (db w) rows;
           viewed_notices := Some (viewedIds ++ (notice_id <$> rows)) |}
    | Some _ => w
    end
  else w.

(** Policy "Users can create views", the only INSERT policy on
    [notice_views]: [WITH CHECK (user_id = auth.uid())],
    [TO authenticated].  A row whose [user_id] is [NULL] does not pass:
    the comparison is not true. *)
Definition canCreateView (uid : option string) (row : ViewEvent) : bool :=
  match uid, user_id row with
  | Some u, Some v => String.eqb v u
  | _, _ => false
  end.

(** [notice_id] references [notices], [user_id] references [profiles]. *)
Definition viewReferences (d : Database) (row : ViewEvent) : bool :=
  bool_decide (is_Some (notices d !! notice_id row))
  && match user_id row with
     | Some v => bool_decide (is_Some (profiles d !! v))
     | None => true
     end.

(** The answer of the database to
    [supabase.from("notice_views").insert(rows)] sent by [uid], one
    statement: [None] when every row passes the policy and its
    references, and otherwise the error [refusal], with no row stored;
    [fault] is the error of the request when the service reports one. *)
Definition insertAnswer (uid : option string) (refusal : ServiceError)
    (fault : option ServiceError) (d : Database) (rows : list ViewEvent)
    : option ServiceError :=
  match fault with
  | Some e => Some e
  | None =>
      if forallb (fun row => canCreateView uid row && viewReferences d row) rows
      then None
      else Some refusal
  end.

(** A call suspended at [await supabase.from("notice_views").insert(newViews)]:
    its [viewedIds] and [newViews], and the answer it resumes with. *)
Record Suspended : Type := mkSuspended {
  viewedIds : list string;
  sent : list ViewEvent;
  error : option ServiceError
}.

(** [trackNoticeViews] up to its [await]: the call reads
    ['viewed_notices'], builds the rows and sends the insert, which the
    database answers with [insertError]; with no new row the call ends
    there. *)
Definition request (viewer : option string) (clock : nat -> Timestamp)
    (insertError : option ServiceError) (batch : list Notice) (w : World)
    : World * option Suspended :=
  let viewedIds := default [] (viewed_notices w) in
  let rows := newViews viewer clock viewedIds batch in
  if 0 <? length rows then
    (match insertError with
     | None => {| db := insertViews (db w) rows; viewed_notices := viewed_notices w |}
     | Some _ => w
     end,
     Some {| viewedIds := viewedIds; sent := rows; error := insertError |})
  else (w, None).

(** [trackNoticeViews] from its [await] on: without an error the call
    writes ['viewed_notices'], from the list it read before the
    [await]. *)
Definition resume (s : Suspended) (w : World) : World :=
  match error s with
  | None =>
      {| db := db w;
         viewed_notices := Some (viewedIds s ++ (notice_id <$> sent s)) |}
  | Some _ => w
  end.

(** The page that runs the tracker: the [user_id] it writes ([null] on
    the public page, [user.id] on the student dashboard), the caller the
    database sees, and the error the database answers when it refuses
    rows. *)
Record Page : Type := mkPage {
  viewer : option string;
  auth_uid : option string;
  refusal : ServiceError
}.

(** One call of the tracker: [fetchNotices] starts it and does not
    await it, and [fetchNotices] runs on mount and again on every
    realtime event, so a call may start while others are suspended. *)
Record Call : Type := mkCall {
  call_clock : nat -> Timestamp;
  call_fault : option ServiceError;
  call_batch : list Notice
}.

(** What happens in a tab: a call starts and runs to its [await], or
    the suspended call at position [k] resumes. *)
Inductive Event : Type :=
  | started (c : Call)
  | resumed (k : nat).

Record Tab : Type := mkTab {
  world : World;
  awaiting : list Suspended
}.

Definition step (p : Page) (t : Tab) (e : Event) : Tab :=
  match e with
  | started c =>
      let w := world t in
      let rows :=
        newViews (viewer p) (call_clock c) (default [] (viewed_notices w)) (call_batch c) in
      let insertError :=
        insertAnswer (auth_uid p) (refusal p) (call_fault c) (db w) rows in
      let r := request (viewer p) (call_clock c) insertError (call_batch c) w in
      {| world := r.1; awaiting := awaiting t ++ option_list r.2 |}
  | resumed k =>
      match awaiting t !! k with
      | Some s => {| world := resume s (world t); awaiting := delete k (awaiting t) |}
      | None => t
      end
  end.

(** The life of a session, from a tab with no call under way. *)
Definition session (p : Page) (events : list Event) (w : World) : Tab :=
  foldl (step p) {| world := w; awaiting := [] |} events.

End ViewTracker.

(* ===================================================================== *)
(** ** Notice lifecycle (NoticeCard: handleApprove, handleReject)         *)
(* ===================================================================== *)

Module Lifecycle.
Import Schema.

Definition setNotices (d : Database) (t : gmap string Notice) : Database :=
  {| notices := t; notice_attachments := notice_attachments d;
     notice_views := notice_views d; profiles := profiles d;
     user_roles := user_roles d |}.

Definition setStatus (n : Notice) (s : Status) : Notice :=
  {| id := id n; title := title n; content := content n;
     category_id := category_id n; author_id := author_id n; status := s;
     priority := priority n; expires_at := expires_at n;
     publish_at := publish_at n; created_at := created_at n;
     updated_at := updated_at n; approved_by := approved_by n;
     approved_at := approved_at n |}.

Definition setApprovedAt (n : Notice) (t : option Timestamp) : Notice :=
  {| id := id n; title := title n; content := content n;
     category_id := category_id n; author_id := author_id n; status := status n;
     priority := priority n; expires_at := expires_at n;
     publish_at := publish_at n; created_at := created_at n;
     updated_at := updated_at n; approved_by := approved_by n;
     approved_at := t |}.

(** Trigger [update_updated_at], BEFORE UPDATE on [notices]. *)
Definition update_updated_at (dbNow : Timestamp) (n : Notice) : Notice :=
  {| id := id n; title := title n; content := content n;
     category_id := category_id n; author_id := author_id n; status := status n;
     priority := priority n; expires_at := expires_at n;
     publish_at := publish_at n; created_at := created_at n;
     updated_at := dbNow; approved_by := approved_by n;
     approved_at := approved_at n |}.

(** Policy "Authors can update own notices":
    [author_id = auth.uid() OR has_role(auth.uid(), 'admin')]. *)
Definition canUpdateNotice (d : Database) (uid : option string) (n : Notice) : bool :=
  match uid with
  | Some u => bool_decide (author_id n = u) || has_role d u admin
  | None => false
  end.

(** Policy "Students can view approved notices", the only SELECT policy
    on [notices].  The migration that adds [publish_at] drops the policy
    of the first migration and creates it anew as
    [status = 'approved' AND (publish_at IS NULL OR publish_at <= NOW())
     AND (author_id = auth.uid() OR has_role(auth.uid(), 'admin'))],
    [TO authenticated].  [reached t] is the verdict of the database on
    [t <= NOW()]. *)
Definition canViewNotice (d : Database) (reached : Timestamp -> bool)
    (uid : option string) (n : Notice) : bool :=
  match uid with
  | Some u =>
      bool_decide (status n = Approved)
      && match publish_at n with
         | None => true
         | Some t => reached t
         end
      && (bool_decide (author_id n = u) || has_role d u admin)
  | None => false
  end.

(** What a request to the database carries and meets: the caller
    ([auth.uid()]), the verdict of the SELECT policy on a row (a
    statement that filters on [id] reaches only the rows the caller may
    read), the clock of the database, the error of the request when the
    service reports one, and the error the database answers when a row
    fails a row-level security check (SQLSTATE 42501). *)
Record Request : Type := mkRequest {
  auth_uid : option string;
  visible : Notice -> bool;
  dbNow : Timestamp;
  fault : option ServiceError;
  refusal : ServiceError
}.

(** [supabase.from("notices").update(patch).eq("id", noticeId)].  The
    statement reaches the row with that key when the policies let the
    caller read and update it; otherwise it updates no row and still
    succeeds.  The row it writes, after the trigger [update_updated_at],
    is checked in its turn: the UPDATE policy has no [WITH CHECK], so its
    [USING] expression is applied to the new row, and since the
    statement has a [WHERE] clause the SELECT policy is applied to the
    new row as well.  A new row that fails is an error, and nothing is
    written. *)
Definition updateNotice (rq : Request) (patch : Notice -> Notice)
    (noticeId : string) (d : Database) : ServiceError + Database :=
  match notices d !! noticeId with
  | Some n =>
      if visible rq n && canUpdateNotice d (auth_uid rq) n then
        let NEW := update_updated_at (dbNow rq) (patch n) in
        if visible rq NEW && canUpdateNotice d (auth_uid rq) NEW
        then inr (setNotices d (<[noticeId := NEW]> (notices d)))
        else inl (refusal rq)
      else inr d
  | None => inr d
  end.

(** What the user sees of a handler: the toast, and whether the
    [onUpdate] callback was invoked. *)
Record Outcome : Type := mkOutcome {
  toast : Toast;
  onUpdate : bool
}.


(** [notice] is the card's property, [now] the reading of [new Date()]. *)
Definition handleApprove (rq : Request) (now : Timestamp) (notice : Notice)
    (d : Database) : Database * Outcome :=
  match fault rq with
  | Some e => (d, {| toast := errorToast e; onUpdate := false |})
  | None =>
      match updateNotice rq
              (fun n => setApprovedAt (setStatus n Approved) (Some now)) (id notice) d with
      | inl e => (d, {| toast := errorToast e; onUpdate := false |})
      | inr d' =>
          (d',
           {| toast := {| toast_title := "Notice approved";
                          toast_description := "The notice has been approved successfully";
                          destructive := false |};
              onUpdate := true |})
      end
  end.

Definition handleReject (rq : Request) (notice : Notice) (d : Database)
    : Database * Outcome :=
  match fault rq with
  | Some e => (d, {| toast := errorToast e; onUpdate := false |})
  | None =>
      match updateNotice rq (fun n => setStatus n Rejected) (id notice) d with
      | inl e => (d, {| toast := errorToast e; onUpdate := false |})
      | inr d' =>
          (d',
           {| toast := {| toast_title := "Notice rejected";
                          toast_description := "The notice has been rejected";
                          destructive := false |};
              onUpdate := true |})
      end
  end.

End Lifecycle.

(* ===================================================================== *)
(** ** Notice creation (CreateNoticeDialog: handleSubmit)                 *)
(* ===================================================================== *)

Module CreateNotice.

Record FormData : Type := mkFormData {
  title : string;
  content : string;
  category_id : string;
  priority : string;
  expires_at : string;
  publish_at : string
}.

(** [interface Attachment] of the dialog. *)
Record Attachment : Type := mkAttachment {
  file_name : string;
  file_url : string;
  file_type : string;
  mime_type : string;
  file_size : N
}.

(** [x || null] and [if (x) ...] on a string: the empty string is falsy. *)
Definition truthy (x : string) : option string :=
  if String.eqb x "" then None else Some x.

(** The answers of the hosted services during one submission:
    the signed-in user, the key and clock of the database, its verdict
    on [t <= NOW()], the error of each of the two inserts when the
    service reports one outside the checks modelled here, and the error
    it answers when a check fails. *)
Record Services : Type := mkServices {
  user : option string;
  gen_random_uuid : string;
  dbNow : Schema.Timestamp;
  reached : Schema.Timestamp -> bool;
  noticeFault : option Schema.ServiceError;
  attachmentFault : option Schema.ServiceError;
  refusal : Schema.ServiceError
}.

Definition staffOrAdmin (d : Schema.Database) (uid : string) : bool :=
  Schema.has_role d uid Schema.staff || Schema.has_role d uid Schema.admin.

(** [CHECK (priority IN ('low', 'normal', 'high', 'urgent'))] *)
Definition priorityCheck (p : string) : bool :=
  bool_decide (p ∈ ["low"; "normal"; "high"; "urgent"]).

(** The row the insert stores: [noticeData], completed by the defaults
    of the table (key, timestamps, no approver).  Both arms of the
    conditional on the screener's verdict give ["pending"]. *)
Definition noticeData (form : FormData) (moderationApproved : option bool)
    (uid : string) (sv : Services) : Schema.Notice :=
  {| Schema.id := gen_random_uuid sv;
     Schema.title := title form;
     Schema.content := content form;
     Schema.category_id := truthy (category_id form);
     Schema.author_id := uid;
     Schema.status :=
       match moderationApproved with
       | Some false => Schema.Pending
       | _ => Schema.Pending
       end;
     Schema.priority := priority form;
     Schema.expires_at := truthy (expires_at form);
     Schema.publish_at := truthy (publish_at form);
     Schema.created_at := dbNow sv;
     Schema.updated_at := dbNow sv;
     Schema.approved_by := None;
     Schema.approved_at := None |}.

(** [supabase.from("notices").insert([noticeData]).select().single()]
    under the policy "Staff can create notices", the primary key, the
    reference to [profiles] and the check on [priority].  [.select()]
    makes the statement return the row it inserts, so the SELECT policy
    is applied to that row too: a row the caller may not read is an
    error, and nothing is stored. *)
Definition insertNotice (sv : Services) (uid : string) (row : Schema.Notice)
    (d : Schema.Database) : Schema.ServiceError + Schema.Database :=
  match noticeFault sv with
  | Some e => inl e
  | None =>
      if staffOrAdmin d uid
         && bool_decide (Schema.notices d !! Schema.id row = None)
         && bool_decide (is_Some (Schema.profiles d !! Schema.author_id row))
         && priorityCheck (Schema.priority row)
         && Lifecycle.canViewNotice d (reached sv) (Some uid) row
      then inr (Lifecycle.setNotices d (<[Schema.id row := row]> (Schema.notices d)))
      else inl (refusal sv)
  end.

Definition attachmentData (noticeId : string) (a : Attachment) : Schema.AttachmentRow :=
  {| Schema.att_notice_id := noticeId;
     Schema.file_name := file_name a;
     Schema.file_url := file_url a;
     Schema.file_type := file_type a;
     Schema.mime_type := mime_type a;
     Schema.file_size := file_size a |}.

(** [supabase.from("notice_attachments").insert(attachmentData)] under
    the policy "Staff can create attachments"; one statement, so either
    every row is stored or none. *)
Definition insertAttachments (sv : Services) (uid : string)
    (rows : list Schema.AttachmentRow) (d : Schema.Database)
    : Schema.ServiceError + Schema.Database :=
  match attachmentFault sv with
  | Some e => inl e
  | None =>
      if staffOrAdmin d uid
      then inr {| Schema.notices := Schema.notices d;
                  Schema.notice_attachments := Schema.notice_attachments d ++ rows;
                  Schema.notice_views := Schema.notice_views d;
                  Schema.profiles := Schema.profiles d;
                  Schema.user_roles := Schema.user_roles d |}
      else inl (refusal sv)
  end.

(** What the user sees: the toast, and whether the form was reset, the
    [onSuccess] callback invoked and the dialog closed. *)
Record Outcome : Type := mkOutcome {
  toast : Schema.Toast;
  completed : bool
}.

Definition failed (e : Schema.ServiceError) : Outcome :=
  {| toast := Schema.errorToast e; completed := false |}.

Definition created : Outcome :=
  {| toast := {| Schema.toast_title := "Notice created";
                 Schema.toast_description := "Your notice has been submitted for approval";
                 Schema.destructive := false |};
     completed := true |}.

Definition handleSubmit (sv : Services) (form : FormData)
    (attachments : list Attachment) (moderationApproved : option bool)
    (d : Schema.Database) : Schema.Database * Outcome :=
  match user sv with
  | None =>
      (d, failed {| Schema.message := "Not authenticated";
                    Schema.instanceofError := true |})
  | Some uid =>
      match insertNotice sv uid (noticeData form moderationApproved uid sv) d with
      | inl noticeError => (d, failed noticeError)
      | inr d1 =>
          if 0 <? length attachments then
            match insertAttachments sv uid
                    (attachmentData (gen_random_uuid sv) <$> attachments) d1 with
            | inl attachmentError => (d1, failed attachmentError)
            | inr d2 => (d2, created)
            end
          else (d1, created)
      end
  end.

End CreateNotice.

(* ===================================================================== *)
(** ** Role store (trigger handle_new_user on auth.users)                 *)
(* ===================================================================== *)

Module RoleStore.
Import Schema.

(** The text fields [->>] reads from a metadata object; [None] is SQL
    [NULL] (the key is absent or holds JSON [null]). *)
Record Metadata : Type := mkMetadata {
  full_name : option string;
  name : option string;
  role : option string
}.

(** The inserted row of [auth.users], [NEW]. *)
Record NewUser : Type := mkNewUser {
  id : string;
  email : option string;
  raw_user_meta_data : Metadata;
  raw_app_meta_data : Metadata
}.

Inductive SqlError : Type :=
  | unique_violation
  | not_null_violation
  | invalid_text_representation
  | foreign_key_violation.

(** The two bodies of the function: the first migration, and the
    [CREATE OR REPLACE] that adds the OAuth metadata. *)
Inductive Version : Type := Initial | OAuth.

(** [text::app_role]: the labels of the enum, and an error otherwise. *)
Definition to_app_role (label : string) : SqlError + app_role :=
  if String.eqb label "admin" then inr admin
  else if String.eqb label "staff" then inr staff
  else if String.eqb label "student" then inr student
  else inl invalid_text_representation.

(** [COALESCE] evaluates its arguments from the left and stops at the
    first that is not [NULL]: a cast to its right is not evaluated. *)
Definition requestedRole (v : Version) (NEW : NewUser) : SqlError + app_role :=
  match role (raw_user_meta_data NEW) with
  | Some label => to_app_role label
  | None =>
      match v with
      | Initial => inr student
      | OAuth =>
          match role (raw_app_meta_data NEW) with
          | Some label => to_app_role label
          | None => inr student
          end
      end
  end.

Definition displayName (v : Version) (NEW : NewUser) : string :=
  match full_name (raw_user_meta_data NEW) with
  | Some n => n
  | None =>
      match v with
      | Initial => "New User"
      | OAuth => default "New User" (name (raw_user_meta_data NEW))
      end
  end.

(** [INSERT INTO public.profiles (id, full_name, email)]: primary key on
    [id], [email] is [NOT NULL]. *)
Definition insertProfile (v : Version) (NEW : NewUser) (d : Database)
    : SqlError + Database :=
  match email NEW with
  | None => inl not_null_violation
  | Some e =>
      match profiles d !! id NEW with
      | Some _ => inl unique_violation
      | None =>
          inr {| notices := notices d;
                 notice_attachments := notice_attachments d;
                 notice_views := notice_views d;
                 profiles := <[id NEW := {| Schema.full_name := displayName v NEW;
                                            Schema.email := e |}]> (profiles d);
                 user_roles := user_roles d |}
      end
  end.

(** [INSERT INTO public.user_roles (user_id, role)]:
    [UNIQUE (user_id, role)]. *)
Definition insertUserRole (uid : string) (r : app_role) (d : Database)
    : SqlError + Database :=
  if has_role d uid r then inl unique_violation
  else inr {| notices := notices d;
              notice_attachments := notice_attachments d;
              notice_views := notice_views d;
              profiles := profiles d;
              user_roles := user_roles d ++ [(uid, r)] |}.

(** The trigger body.  An error aborts the statement that fired the
    trigger: the caller keeps the database it had. *)
Definition handle_new_user (v : Version) (NEW : NewUser) (d : Database)
    : SqlError + Database :=
  match insertProfile v NEW d with
  | inl e => inl e
  | inr d1 =>
      let user_count := size (profiles d1) in
      let user_role :=
        if user_count =? 1 then inr admin else requestedRole v NEW in
      match user_role with
      | inl e => inl e
      | inr r => insertUserRole (id NEW) r d1
      end
  end.

Definition setUserRoles (d : Database) (roles : list (string * app_role)) : Database :=
  {| notices := notices d;
     notice_attachments := notice_attachments d;
     notice_views := notice_views d;
     profiles := profiles d;
     user_roles := roles |}.

(** What goes with the profile of [u] when its row of [auth.users] is
    deleted: [profiles.id] references [auth.users], and [user_roles],
    [notices.author_id] and [notice_views.user_id] reference [profiles],
    all with [ON DELETE CASCADE]; the attachments and the views of a
    notice go with the notice. *)
Definition cascade (u : string) (d : Database) : Database :=
  let gone (noticeId : string) : bool :=
    bool_decide (author_id <$> notices d !! noticeId = Some u) in
  {| notices := filter (fun row => author_id row.2 <> u) (notices d);
     notice_attachments :=
       List.filter (fun a => negb (gone (att_notice_id a))) (notice_attachments d);
     notice_views :=
       List.filter (fun v => negb (gone (notice_id v))
                             && negb (bool_decide (user_id v = Some u)))
         (notice_views d);
     profiles := delete u (profiles d);
     user_roles := List.filter (fun row => negb (String.eqb row.1 u)) (user_roles d) |}.

(** [DELETE FROM auth.users WHERE id = u], as the tables let it through.
    [notices.approved_by] references [profiles] with no action on delete,
    so a notice that names [u] as its approver stops the statement.  A
    row of [user_roles] or of [notices] that goes in the cascade fires
    its audit trigger, which inserts a row of [audit_logs] in the name
    of the profile that has just gone; [audit_logs.user_id] references
    [profiles], so that insert fails and the statement with it.  The
    identity that can be removed holds no role row and wrote no
    notice. *)
Definition delete_user (u : string) (d : Database) : SqlError + Database :=
  if existsb (fun row => String.eqb row.1 u) (user_roles d)
     || negb (bool_decide
                (map_Forall (fun _ n => author_id n <> u /\ approved_by n <> Some u)
                   (notices d)))
  then inl foreign_key_violation
  else inr (cascade u d).

(** The databases the system goes through: it starts empty; each
    identity that is created runs the trigger, in either of its two
    bodies; between two creations the roles of the identities that
    exist may be rewritten (the role dialog deletes and inserts rows of
    [user_roles], which reference [profiles]); and an identity that
    exists may be removed, its rows going with it.  [created n d]: [d]
    is reached this way and holds [n] identities. *)
Inductive created : nat -> Database -> Prop :=
  | created_none : created 0 emptyDatabase
  | created_next n d v NEW d' :
      created n d ->
      handle_new_user v NEW d = inr d' ->
      created (S n) d'
  | created_roles n d roles :
      created n d ->
      (forall u r, (u, r) ∈ roles -> is_Some (profiles d !! u)) ->
      created n (setUserRoles d roles)
  | created_removed n d u :
      created (S n) d ->
      is_Some (profiles d !! u) ->
      created n (cascade u d).

End RoleStore.

(* ===================================================================== *)
(** ** File upload (src/hooks/useFileUpload.ts)                           *)
(* ===================================================================== *)

Module Upload.

Definition BUCKET_NAME : string := "attachments".

(** [File]: name, MIME type and size in bytes. *)
Record File : Type := mkFile {
  name : string;
  type : string;
  size : N
}.

Inductive FileType : Type := image | video | document.

Definition getFileType (file : File) : FileType :=
  if Js.startsWith (type file) "image/" then image
  else if Js.startsWith (type file) "video/" then video
  else document.

(** [name.split('.').pop()]: what follows the last dot, the whole name
    when it has none.  [cur] is the piece being read. *)
Fixpoint lastPiece (cur : string) (s : string) : string :=
  match s with
  | EmptyString => cur
  | String c s' =>
      if Ascii.eqb c "."%char then lastPiece EmptyString s'
      else lastPiece (cur +:+ String c EmptyString) s'
  end.

(** The storage service: the objects of each bucket, and the upload
    requests it has received. *)
Record Storage : Type := mkStorage {
  objects : list (string * string * File);
  uploadCalls : list (string * string)
}.

(** What one call reads from outside: [Date.now()] in decimal, the six
    characters drawn from [Math.random()], the error of the upload when
    the service reports one, and [getPublicUrl]. *)
Record Environment : Type := mkEnvironment {
  dateNow : string;
  randomString : string;
  uploadError : option string;
  getPublicUrl : string -> string -> string
}.

Record Uploaded : Type := mkUploaded {
  url : string;
  uploaded_type : FileType;
  uploaded_size : N
}.

Definition filePath (env : Environment) (file : File) : string :=
  let fileExt := lastPiece EmptyString (name file) in
  let fileName := dateNow env +:+ "-" +:+ randomString env +:+ "." +:+ fileExt in
  "notice_attachments/" +:+ fileName.

(** [supabase.storage.from(bucket).upload(path, file, { upsert: false })] *)
Definition upload (env : Environment) (bucket path : string) (file : File)
    (st : Storage) : option string * Storage :=
  let called := uploadCalls st ++ [(bucket, path)] in
  match uploadError env with
  | Some e => (Some e, {| objects := objects st; uploadCalls := called |})
  | None =>
      (None, {| objects := objects st ++ [(bucket, path, file)];
                uploadCalls := called |})
  end.

(** [uploadFile]: the value of the promise, [inl] the message of the
    error it rejects with, and the storage afterwards.  (The flag
    [isUploading], raised on entry and lowered by [finally] on every
    path, is not part of the result.) *)
Definition uploadFile (env : Environment) (file : File) (st : Storage)
    : (string + Uploaded) * Storage :=
  if (10 * 1024 * 1024 <? size file)%N then
    (inl "File size must be less than 10MB", st)
  else
    let path := filePath env file in
    match upload env BUCKET_NAME path file st with
    | (Some e, st') => (inl ("Upload failed: " +:+ e), st')
    | (None, st') =>
        (inr {| url := getPublicUrl env BUCKET_NAME path;
                uploaded_type := getFileType file;
                uploaded_size := size file |}, st')
    end.

End Upload.

(* ===================================================================== *)
(** ** Search and category filter (PublicNotices, StudentDashboard)       *)
(* ===================================================================== *)

Module Search.
Import Schema.

(** [matchesSearch] *)
Definition matchesSearch (searchTerm : string) (notice : Notice) : bool :=
  Js.includes (Js.toLowerCase (title notice)) (Js.toLowerCase searchTerm)
  || Js.includes (Js.toLowerCase (content notice)) (Js.toLowerCase searchTerm).

(** [matchesCategory]: [category_id] is a key or [null], and [null] is
    not [===] to any string. *)
Definition matchesCategory (selectedCategory : string) (notice : Notice) : bool :=
  String.eqb selectedCategory "all"
  || bool_decide (category_id notice = Some selectedCategory).

Definition filteredNotices (searchTerm selectedCategory : string)
    (notices : list Notice) : list Notice :=
  List.filter
    (fun notice => matchesSearch searchTerm notice
                   && matchesCategory selectedCategory notice)
    notices.

End Search.

(* ===================================================================== *)
(** ** Notice deletion (NoticeCard: handleDelete)                         *)
(* ===================================================================== *)

Module Deletion.
Import Schema Lifecycle.

(** Policy "Admins can delete notices": [has_role(auth.uid(), 'admin')]. *)
Definition canDeleteNotice (d : Database) (uid : option string) : bool :=
  match uid with
  | Some u => has_role d u admin
  | None => false
  end.

(** [supabase.from("notices").delete().eq("id", noticeId)]: the row goes
    when the policies let the caller read and delete it, and with it the
    rows of [notice_attachments] and [notice_views] that reference it
    ([ON DELETE CASCADE]); otherwise the statement deletes no row and
    still succeeds. *)
Definition deleteNotice (rq : Request) (noticeId : string) (d : Database) : Database :=
  match notices d !! noticeId with
  | Some n =>
      if visible rq n && canDeleteNotice d (auth_uid rq)
      then {| notices := delete noticeId (notices d);
              notice_attachments :=
                List.filter (fun a => negb (String.eqb (att_notice_id a) noticeId))
                  (notice_attachments d);
              notice_views :=
                List.filter (fun v => negb (String.eqb (notice_id v) noticeId))
                  (notice_views d);
              profiles := profiles d;
              user_roles := user_roles d |}
      else d
  | None => d
  end.

(** [confirmed] is the answer to [confirm(...)]; when it is [false] the
    handler returns at once, with no request and no toast. *)
Definition handleDelete (confirmed : bool) (rq : Request) (notice : Notice)
    (d : Database) : Database * option Outcome :=
  if negb confirmed then (d, None)
  else
    match fault rq with
    | Some e => (d, Some {| toast := errorToast e; onUpdate := false |})
    | None =>
        (deleteNotice rq (id notice) d,
         Some {| toast := {| toast_title := "Notice deleted";
                             toast_description := "The notice has been deleted successfully";
                             destructive := false |};
                 onUpdate := true |})
    end.

End Deletion.

(* ===================================================================== *)
(** ** Audit trail of notices (log_audit_event, audit_notice_changes)     *)
(* ===================================================================== *)

Module Audit.
Import Schema Lifecycle.

(** The JSON documents the triggers build. *)
Inductive Values : Type :=
  | StatusValue (s : Status)
      (** [jsonb_build_object('status', s)] *)
  | RowValue (row : Notice)
      (** [row_to_json(row)::jsonb] *)
  | ApprovalValue (approved_by : option string) (approved_at : option Timestamp)
      (** [jsonb_build_object('approved_by', .., 'approved_at', ..)] *).

(** A row of [audit_logs] (without key, address, agent and time). *)
Record AuditEvent : Type := mkAuditEvent {
  user_id : option string;
  action : string;
  entity_type : string;
  entity_id : option string;
  old_values : option Values;
  new_values : option Values;
  metadata : option Values
}.

(** [log_audit_event]: the row it inserts. *)
Definition log_audit_event (p_user_id : option string) (p_action p_entity_type : string)
    (p_entity_id : option string) (p_old_values p_new_values p_metadata : option Values)
    : AuditEvent :=
  {| user_id := p_user_id; action := p_action; entity_type := p_entity_type;
     entity_id := p_entity_id; old_values := p_old_values;
     new_values := p_new_values; metadata := p_metadata |}.

(** What fires a row trigger: [TG_OP] with [OLD] and [NEW]. *)
Inductive RowChange : Type :=
  | INSERT (NEW : Notice)
  | UPDATE (OLD NEW : Notice)
  | DELETE (OLD : Notice).

(** [COALESCE(NEW.approved_by, NEW.author_id)] *)
Definition approverOrAuthor (NEW : Notice) : string :=
  default (author_id NEW) (approved_by NEW).

(** [audit_notice_changes], AFTER INSERT OR UPDATE OR DELETE on
    [notices], FOR EACH ROW. *)
Definition audit_notice_changes (change : RowChange) : AuditEvent :=
  match change with
  | INSERT NEW =>
      log_audit_event (Some (author_id NEW)) "create" "notice" (Some (id NEW))
        None (Some (RowValue NEW)) (Some (StatusValue (status NEW)))
  | UPDATE OLD NEW =>
      if bool_decide (status OLD <> status NEW) then
        log_audit_event (Some (approverOrAuthor NEW))
          match status NEW with
          | Approved => "approve"
          | Rejected => "reject"
          | Pending => "update"
          end
          "notice" (Some (id NEW))
          (Some (StatusValue (status OLD))) (Some (StatusValue (status NEW)))
          (Some (ApprovalValue (approved_by NEW) (approved_at NEW)))
      else
        log_audit_event (Some (author_id NEW)) "update" "notice" (Some (id NEW))
          (Some (RowValue OLD)) (Some (RowValue NEW)) None
  | DELETE OLD =>
      log_audit_event (Some (author_id OLD)) "delete" "notice" (Some (id OLD))
        (Some (RowValue OLD)) None None
  end.

(** The rows an update statement on [notices] adds to [audit_logs]: the
    trigger fires for the row the statement rewrites, after
    [update_updated_at] has set its time.  A statement the database
    refuses ([updateNotice] answers an error) is undone as a whole and
    leaves no audit row. *)
Definition updateNoticeAudit (rq : Request) (patch : Notice -> Notice)
    (noticeId : string) (d : Database) : list AuditEvent :=
  match notices d !! noticeId with
  | Some n =>
      if visible rq n && canUpdateNotice d (auth_uid rq) n then
        let NEW := update_updated_at (dbNow rq) (patch n) in
        if visible rq NEW && canUpdateNotice d (auth_uid rq) NEW
        then [audit_notice_changes (UPDATE n NEW)]
        else []
      else []
  | None => []
  end.

(** The rows a delete statement adds. *)
Definition deleteNoticeAudit (rq : Request) (noticeId : string) (d : Database)
    : list AuditEvent :=
  match notices d !! noticeId with
  | Some n =>
      if visible rq n && Deletion.canDeleteNotice d (auth_uid rq)
      then [audit_notice_changes (DELETE n)]
      else []
  | None => []
  end.

(** The rows the request of each handler of the card adds. *)
Definition handleApproveAudit (rq : Request) (now : Timestamp) (notice : Notice)
    (d : Database) : list AuditEvent :=
  match fault rq with
  | Some _ => []
  | None =>
      updateNoticeAudit rq
        (fun n => setApprovedAt (setStatus n Approved) (Some now)) (id notice) d
  end.

Definition handleRejectAudit (rq : Request) (notice : Notice) (d : Database)
    : list AuditEvent :=
  match fault rq with
  | Some _ => []
  | None => updateNoticeAudit rq (fun n => setStatus n Rejected) (id notice) d
  end.

Definition handleDeleteAudit (confirmed : bool) (rq : Request) (notice : Notice)
    (d : Database) : list AuditEvent :=
  if negb confirmed then []
  else
    match fault rq with
    | Some _ => []
    | None => deleteNoticeAudit rq (id notice) d
    end.

End Audit.

(* ===================================================================== *)
(** ** Roles on the client (ManageRolesDialog, AuthContext, Dashboard)    *)
(* ===================================================================== *)

Module RoleDialog.
Import Schema.

(** The answers of the service to the two requests of one role change:
    the caller, the error of each request when the service reports one
    outside the checks modelled here, and the error it answers when a
    check fails. *)
Record Services : Type := mkServices {
  auth_uid : option string;
  deleteFault : option ServiceError;
  insertFault : option ServiceError;
  refusal : ServiceError
}.

(** Policy "Admins can manage roles", FOR ALL:
    [has_role(auth.uid(), 'admin')]. *)
Definition canManageRoles (d : Database) (uid : option string) : bool :=
  match uid with
  | Some u => has_role d u admin
  | None => false
  end.

(** [supabase.from("user_roles").delete().eq("user_id", userId)] *)
Definition deleteRoles (sv : Services) (userId : string) (d : Database) : Database :=
  match deleteFault sv with
  | Some _ => d
  | None =>
      if canManageRoles d (auth_uid sv)
      then RoleStore.setUserRoles d
             (List.filter (fun row => negb (String.eqb row.1 userId)) (user_roles d))
      else d
  end.

(** [supabase.from("user_roles").insert([{ user_id, role }])]: the label
    must be one of the enum, the policy must hold of the caller when the
    statement runs, the user must have a profile and not hold the role
    already. *)
Definition insertRole (sv : Services) (userId role : string) (d : Database)
    : ServiceError + Database :=
  match insertFault sv with
  | Some e => inl e
  | None =>
      match RoleStore.to_app_role role with
      | inl _ => inl (refusal sv)
      | inr r =>
          if canManageRoles d (auth_uid sv)
             && bool_decide (is_Some (profiles d !! userId))
             && negb (has_role d userId r)
          then inr (RoleStore.setUserRoles d (user_roles d ++ [(userId, r)]))
          else inl (refusal sv)
      end
  end.

(** [handleUpdateRole]: the answer to the delete request is not looked
    at. *)
Definition handleUpdateRole (sv : Services) (selectedUser selectedRole : string)
    (d : Database) : Database * Toast :=
  if String.eqb selectedUser "" || String.eqb selectedRole "" then
    (d, {| toast_title := "Error";
           toast_description := "Please select a user and role";
           destructive := true |})
  else
    let d1 := deleteRoles sv selectedUser d in
    match insertRole sv selectedUser selectedRole d1 with
    | inl e => (d1, errorToast e)
    | inr d2 =>
        (d2, {| toast_title := "Role updated";
                toast_description := "User role has been updated successfully";
                destructive := false |})
    end.

(** The text of a value of [app_role]. *)
Definition roleName (r : app_role) : string :=
  match r with
  | admin => "admin"
  | staff => "staff"
  | student => "student"
  end.

(** [fetchUserRole]:
    [from("user_roles").select("role").eq("user_id", userId).single()].
    [single()] answers an error unless exactly one row is found, and on
    any error the role is ['student']. *)
Definition fetchUserRole (failed : bool) (userId : string) (d : Database) : string :=
  if failed then "student"
  else
    match List.filter (fun row => String.eqb row.1 userId) (user_roles d) with
    | [row] => roleName row.2
    | _ => "student"
    end.

Inductive Screen : Type :=
  | Loader | Nothing | AdminDashboard | StaffDashboard | StudentDashboard.

(** [Dashboard]: [!user || !userRole] gives nothing; the empty string is
    falsy. *)
Definition Dashboard (loading : bool) (user userRole : option string) : Screen :=
  if loading then Loader
  else
    match user, userRole with
    | Some _, Some r =>
        if String.eqb r "" then Nothing
        else if String.eqb r "admin" then AdminDashboard
        else if String.eqb r "staff" then StaffDashboard
        else StudentDashboard
    | _, _ => Nothing
    end.

End RoleDialog.

(* ===================================================================== *)
(** ** Attachments and content field of the dialog (CreateNoticeDialog)  *)
(* ===================================================================== *)

Module Dialog.
Import Schema.

(** The text of a [FileType]. *)
Definition fileTypeName (t : Upload.FileType) : string :=
  match t with
  | Upload.image => "image"
  | Upload.video => "video"
  | Upload.document => "document"
  end.

(** What the dialog holds while files are uploaded: the attachments, the
    toasts shown so far, and the storage. *)
Record State : Type := mkState {
  attachments : list CreateNotice.Attachment;
  toasts : list Toast;
  storage : Upload.Storage
}.

(** [handleFileUpload]: the loop over [event.target.files]; each file
    comes with what its upload reads from outside. *)
Fixpoint handleFileUpload (files : list (Upload.Environment * Upload.File))
    (st : State) : State :=
  match files with
  | [] => st
  | (env, file) :: files' =>
      match Upload.uploadFile env file (storage st) with
      | (inr result, storage') =>
          handleFileUpload files'
            {| attachments :=
                 attachments st
                 ++ [{| CreateNotice.file_name := Upload.name file;
                        CreateNotice.file_url := Upload.url result;
                        CreateNotice.file_type := fileTypeName (Upload.uploaded_type result);
                        CreateNotice.mime_type := Upload.type file;
                        CreateNotice.file_size := Upload.uploaded_size result |}];
               toasts := toasts st;
               storage := storage' |}
      | (inl message, storage') =>
          handleFileUpload files'
            {| attachments := attachments st;
               toasts :=
                 toasts st
                 ++ [{| toast_title := "Upload failed";
                        toast_description :=
                          "Failed to upload " +:+ Upload.name file +:+ ": " +:+ message;
                        destructive := true |}];
               storage := storage' |}
      end
  end.

(** [prev.filter((_, i) => i !== index)], with [i] counted from [from]. *)
Fixpoint filterIndex {A : Type} (index from : nat) (prev : list A) : list A :=
  match prev with
  | [] => []
  | x :: prev' =>
      if from =? index then filterIndex index (S from) prev'
      else x :: filterIndex index (S from) prev'
  end.

Definition removeAttachment (index : nat) (prev : list CreateNotice.Attachment)
    : list CreateNotice.Attachment :=
  filterIndex index 0 prev.

(** The content field: [onChange] stores [sanitizeContent(e.target.value)]. *)
Definition changeContent (value : string) (form : CreateNotice.FormData)
    : CreateNotice.FormData :=
  {| CreateNotice.title := CreateNotice.title form;
     CreateNotice.content := Moderation.sanitizeContent value;
     CreateNotice.category_id := CreateNotice.category_id form;
     CreateNotice.priority := CreateNotice.priority form;
     CreateNotice.expires_at := CreateNotice.expires_at form;
     CreateNotice.publish_at := CreateNotice.publish_at form |}.

End Dialog.

(* ===================================================================== *)
(** * Vocabulary of the statements, and sample data                      *)
(* ===================================================================== *)

Section StringVocabulary.
Import Js Moderation.

(** Every code unit of [s] satisfies [P]. *)
Fixpoint AllChars (P : ascii -> Prop) (s : string) : Prop :=
  match s with
  | EmptyString => True
  | String c s' => P c /\ AllChars P s'
  end.

(** No position of [s] is the start of a match of [m]. *)
Fixpoint NoMatch (m : Matcher) (prev : option ascii) (s : string) : Prop :=
  match s with
  | EmptyString => True
  | String c s' => m prev s = None /\ NoMatch m (Some c) s'
  end.

(** The pattern does not look behind the position it is tried at. *)
Definition IgnoresPrev (m : Matcher) : Prop := forall p q s, m p s = m q s.

(** [s.replace(/\n{3,}/g, '\n\n')] *)
Definition collapse (s : string) : string :=
  replace matchBlankLines (sLF +:+ sLF) s.

(** No run of three line feeds starts anywhere in [s]. *)
Fixpoint NoTriple (s : string) : Prop :=
  match s with
  | EmptyString => True
  | String c s' => countWhile isLF s < 3 /\ NoTriple s'
  end.

(** No carriage return in [s]. *)
Definition NoCR (s : string) : Prop := AllChars (fun c => Ascii.eqb c CR = false) s.

Definition sCR : string := String CR EmptyString.

(** The replacement of a match is no longer than the match, and a match
    lies within the text. *)
Definition Shrinking (m : Matcher) (repl : string) : Prop :=
  forall p s n, m p s = Some n -> String.length repl <= n <= String.length s.

End StringVocabulary.

Section ViewVocabulary.
Import Schema ViewTracker.


(** The error of a row-level security check, a plain object. *)
Definition securityError : ServiceError :=
  {| message := "new row violates row-level security policy";
     instanceofError := false |}.

(** The public page, visited by [uid]. *)
Definition publicPage (uid : option string) : Page :=
  {| viewer := None; auth_uid := uid; refusal := securityError |}.

(** The student dashboard of the signed-in user [u]. *)
Definition studentDashboard (u : string) : Page :=
  {| viewer := Some u; auth_uid := Some u; refusal := securityError |}.

(** An approved notice, as the public page lists it. *)
Definition visibleNotice (i : string) : Notice :=
  {| id := i; title := "Library hours";
     content := "The library closes at nine this week";
     category_id := None; author_id := "staff-1"; status := Approved;
     priority := "normal"; expires_at := None; publish_at := None;
     created_at := "2025-10-01T08:00:00.000Z";
     updated_at := "2025-10-02T09:00:00.100Z";
     approved_by := None; approved_at := Some "2025-10-02T09:00:00.000Z" |}.

Definition sampleClock : nat -> Timestamp := fun _ => "2025-10-05T12:00:00.000Z".


(** A database with the approved notices "A" and "B" of "staff-1", who
    has become a student since, and the administrator "admin-1". *)
Definition noticeBoard : Database :=
  {| notices := {[ "A" := visibleNotice "A"; "B" := visibleNotice "B" ]};
     notice_attachments := []; notice_views := [];
     profiles := {[ "staff-1" := {| full_name := "Staff"; email := "staff@example.org" |};
                    "admin-1" := {| full_name := "Admin"; email := "admin@example.org" |} ]};
     user_roles := [("staff-1", student); ("admin-1", admin)] |}.

Definition sampleCall (batch : list Notice) : Call :=
  {| call_clock := sampleClock; call_fault := None; call_batch := batch |}.

End ViewVocabulary.

Section LifecycleSamples.
Import Schema.

(** The request is answered by the database of the repository: the
    rows it lets the caller read are those of the SELECT policy. *)
Definition InForce (d : Database) (reached : Timestamp -> bool)
    (rq : Lifecycle.Request) : Prop :=
  forall n,
    Lifecycle.visible rq n
    = Lifecycle.canViewNotice d reached (Lifecycle.auth_uid rq) n.

(** A notice written by "staff-1", and a database where "admin-1" is an
    administrator. *)
Definition sampleNotice (s : Status) : Notice :=
  {| id := "n-1"; title := "Exam timetable";
     content := "The timetable is on the board";
     category_id := None; author_id := "staff-1"; status := s;
     priority := "normal"; expires_at := None; publish_at := None;
     created_at := "2025-10-01T08:00:00.000Z";
     updated_at := "2025-10-01T08:00:00.000Z";
     approved_by := None; approved_at := None |}.

Definition sampleDatabase (s : Status) : Database :=
  {| notices := {[ "n-1" := sampleNotice s ]};
     notice_attachments := []; notice_views := [];
     profiles := {[ "staff-1" := {| full_name := "Staff"; email := "staff@example.org" |};
                    "admin-1" := {| full_name := "Admin"; email := "admin@example.org" |} ]};
     user_roles := [("staff-1", staff); ("admin-1", admin)] |}.

(** A request of [uid] that the service answers, at a time every
    publication date has been reached. *)
Definition requestOf (uid : string) (d : Database) : Lifecycle.Request :=
  {| Lifecycle.auth_uid := Some uid;
     Lifecycle.visible := Lifecycle.canViewNotice d (fun _ => true) (Some uid);
     Lifecycle.dbNow := "2025-10-02T09:00:00.100Z";
     Lifecycle.fault := None;
     Lifecycle.refusal := securityError |}.

(** A request of the administrator "admin-1". *)
Definition adminRequest (d : Database) : Lifecycle.Request := requestOf "admin-1" d.

End LifecycleSamples.

Section CreateNoticeSamples.
Import CreateNotice.

Definition sampleServices : Services :=
  {| user := Some "staff-1";
     gen_random_uuid := "n-2";
     dbNow := "2025-10-03T10:00:00.000Z";
     reached := fun _ => true;
     noticeFault := None;
     attachmentFault :=
       Some {| Schema.message := "request failed"; Schema.instanceofError := true |};
     refusal :=
       {| Schema.message := "row-level security"; Schema.instanceofError := false |} |}.

Definition sampleForm : FormData :=
  {| title := "Sports day"; content := "Sports day is next Friday";
     category_id := ""; priority := "high"; expires_at := ""; publish_at := "" |}.

Definition sampleAttachment : Attachment :=
  {| file_name := "poster.png"; file_url := "https://files.example.org/poster.png";
     file_type := "image"; mime_type := "image/png"; file_size := 2048 |}.

End CreateNoticeSamples.

Section RoleVocabulary.
Import Schema RoleStore.

(** The role label given at creation, if any: the user metadata, and in
    the second body of the trigger the application metadata after it. *)
Definition providedRole (v : Version) (NEW : NewUser) : option string :=
  match role (raw_user_meta_data NEW) with
  | Some label => Some label
  | None =>
      match v with
      | Initial => None
      | OAuth => role (raw_app_meta_data NEW)
      end
  end.

Definition firstUser : NewUser :=
  {| id := "u-1"; email := Some "first@example.org";
     raw_user_meta_data :=
       {| full_name := Some "First"; name := None; role := Some "student" |};
     raw_app_meta_data := {| full_name := None; name := None; role := None |} |}.

Definition secondUser : NewUser :=
  {| id := "u-2"; email := Some "second@example.org";
     raw_user_meta_data := {| full_name := None; name := None; role := None |};
     raw_app_meta_data := {| full_name := None; name := None; role := None |} |}.

End RoleVocabulary.

Section UploadSamples.
Import Upload.

Definition sampleEnvironment : Environment :=
  {| dateNow := "1759486800000"; randomString := "k3x9qa"; uploadError := None;
     getPublicUrl := fun bucket path =>
       "https://files.example.org/" +:+ bucket +:+ "/" +:+ path |}.

Definition emptyStorage : Storage := {| objects := []; uploadCalls := [] |}.

End UploadSamples.

Section ScreenerVocabulary.
Import Js Moderation.

(** The code unit at the end of [s], and [prev] when [s] is empty. *)
Fixpoint lastOr (prev : option ascii) (s : string) : option ascii :=
  match s with
  | EmptyString => prev
  | String c s' => lastOr (Some c) s'
  end.

End ScreenerVocabulary.

Section RoleDialogVocabulary.
Import Schema.

(** The role rows of [u]. *)
Definition rowsOf (u : string) (rows : list (string * app_role)) : list (string * app_role) :=
  List.filter (fun row => String.eqb row.1 u) rows.

(** The requests of the administrator "admin-1" in the role dialog,
    answered by the service; [deleteFails] makes the delete request
    fail. *)
Definition adminRoleServices (deleteFails : bool) : RoleDialog.Services :=
  {| RoleDialog.auth_uid := Some "admin-1";
     RoleDialog.deleteFault :=
       if deleteFails
       then Some {| message := "request failed"; instanceofError := true |}
       else None;
     RoleDialog.insertFault := None;
     RoleDialog.refusal :=
       {| message := "row-level security"; instanceofError := false |} |}.

(** The requests of [uid] in the role dialog, answered by the service. *)
Definition roleServicesOf (uid : string) : RoleDialog.Services :=
  {| RoleDialog.auth_uid := Some uid;
     RoleDialog.deleteFault := None;
     RoleDialog.insertFault := None;
     RoleDialog.refusal :=
       {| message := "row-level security"; instanceofError := false |} |}.

End RoleDialogVocabulary.

Section DialogVocabulary.
Import Upload.

(** The upload of the file is let through: it is within the size limit
    and the storage reports no error. *)
Definition uploaded (picked : Environment * File) : bool :=
  (size picked.2 <=? 10485760)%N && bool_decide (uploadError picked.1 = None).

(** The attachment the dialog keeps for an uploaded file. *)
Definition attachmentOf (picked : Environment * File) : CreateNotice.Attachment :=
  {| CreateNotice.file_name := name picked.2;
     CreateNotice.file_url :=
       getPublicUrl picked.1 BUCKET_NAME (filePath picked.1 picked.2);
     CreateNotice.file_type := Dialog.fileTypeName (getFileType picked.2);
     CreateNotice.mime_type := type picked.2;
     CreateNotice.file_size := size picked.2 |}.

(** The message of the error [uploadFile] rejects with when the upload
    is not let through. *)
Definition failureMessage (picked : Environment * File) : string :=
  if (10485760 <? size picked.2)%N then "File size must be less than 10MB"
  else "Upload failed: " +:+ default "" (uploadError picked.1).

(** The toast the dialog shows for such a file. *)
Definition failureToast (picked : Environment * File) : Schema.Toast :=
  {| Schema.toast_title := "Upload failed";
     Schema.toast_description :=
       "Failed to upload " +:+ name picked.2 +:+ ": " +:+ failureMessage picked;
     Schema.destructive := true |}.

End DialogVocabulary.

Section TypingVocabulary.
Import Js Moderation.

(** No position of [y], read in [y +:+ w], is the start of a match. *)
Fixpoint NoMatchBefore (m : Matcher) (prev : option ascii) (y w : string) : Prop :=
  match y with
  | EmptyString => True
  | String c y' => m prev (y +:+ w) = None /\ NoMatchBefore m (Some c) y' w
  end.

(** [w] is white space only. *)
Definition Blank (w : string) : Prop := AllChars (fun c => isWhiteSpace c = true) w.

End TypingVocabulary.

(* ===================================================================== *)
(** * Properties                                                          *)
(* ===================================================================== *)

(** ** Strings *)

Section StringFacts.
Import Js.

Lemma app_cons x (a b : string) : String x a +:+ b = String x (a +:+ b).
Proof. reflexivity. Qed.

Lemma app_empty_l (b : string) : EmptyString +:+ b = b.
Proof. reflexivity. Qed.

Lemma AllChars_app P a b : AllChars P a -> AllChars P b -> AllChars P (a +:+ b).
Proof.
  induction a as [|c a IH]; [tauto|].
  rewrite app_cons. simpl. intros [Hc Ha] Hb. auto.
Qed.

Lemma AllChars_impl (P Q : ascii -> Prop) s :
  (forall c, P c -> Q c) -> AllChars P s -> AllChars Q s.
Proof. intros HPQ. induction s as [|c s IH]; simpl; [tauto|]. intros [? ?]. auto. Qed.

Lemma app_assoc_string (a b c : string) : (a +:+ b) +:+ c = a +:+ b +:+ c.
Proof. induction a as [|x a IH]; [reflexivity|]. by rewrite !app_cons, IH. Qed.

Lemma app_empty_r (a : string) : a +:+ EmptyString = a.
Proof. induction a as [|x a IH]; [reflexivity|]. by rewrite app_cons, IH. Qed.

Lemma toLowerChar_not_upper c : isUpperAZ (toLowerChar c) = false.
Proof. destruct c as [[] [] [] [] [] [] [] []]; reflexivity. Qed.

Lemma toLowerCase_no_upper s :
  AllChars (fun c => isUpperAZ c = false) (toLowerCase s).
Proof.
  induction s as [|c s IH]; simpl; [exact I|].
  split; [apply toLowerChar_not_upper | exact IH].
Qed.

Lemma toLowerCase_app a b : toLowerCase (a +:+ b) = toLowerCase a +:+ toLowerCase b.
Proof.
  induction a as [|c a IH]; [reflexivity|].
  rewrite app_cons. cbn [toLowerCase]. by rewrite app_cons, IH.
Qed.

Lemma startsWith_app x b : startsWith (x +:+ b) x = true.
Proof.
  induction x as [|c x IH]; [reflexivity|].
  rewrite app_cons. cbn [startsWith]. by rewrite Ascii.eqb_refl.
Qed.

Lemma includes_here s sub : startsWith s sub = true -> includes s sub = true.
Proof. intros H. destruct s; simpl in *; by rewrite H. Qed.

Lemma includes_later a s sub : includes s sub = true -> includes (a +:+ s) sub = true.
Proof.
  intros H. induction a as [|c a IH]; [exact H|].
  rewrite app_cons. cbn [includes]. rewrite IH. by destruct (startsWith _ _).
Qed.

(** [includes] finds every factor. *)
Lemma includes_factor a x b : includes (a +:+ x +:+ b) x = true.
Proof. apply includes_later, includes_here, startsWith_app. Qed.

Lemma join_factor sep (l : list string) w :
  w ∈ l -> exists a b, join sep l = a +:+ w +:+ b.
Proof.
  induction l as [|x l IH]; intros Hw; [by apply elem_of_nil in Hw|].
  apply elem_of_cons in Hw as [->|Hw].
  - destruct l as [|y l]; simpl.
    + exists EmptyString, EmptyString. by rewrite app_empty_r.
    + exists EmptyString. eexists. reflexivity.
  - destruct (IH Hw) as (a & b & Hab).
    destruct l as [|y l]; [by apply elem_of_nil in Hw|].
    exists (x +:+ sep +:+ a), b.
    change (join sep (x :: y :: l)) with (x +:+ sep +:+ join sep (y :: l)).
    by rewrite Hab, !app_assoc_string.
Qed.

End StringFacts.

(** ** Content screener *)

Section Screener.
Import Js Moderation.

Lemma matchCaps_lower prev s :
  AllChars (fun c => isUpperAZ c = false) s -> matchCaps prev s = None.
Proof.
  unfold matchCaps. destruct s as [|c s]; simpl; [reflexivity|].
  intros [-> _]. reflexivity.
Qed.

Lemma exec_caps_lower prev s pos :
  AllChars (fun c => isUpperAZ c = false) s -> exec matchCaps prev s pos = None.
Proof.
  revert prev pos. induction s as [|c s IH]; intros prev pos Hs.
  - reflexivity.
  - cbn [exec]. rewrite (matchCaps_lower _ _ Hs). destruct Hs as [_ Hs]. by apply IH.
Qed.

Lemma seek_AllChars P prev s n p r :
  AllChars P s -> seek prev s n = Some (p, r) -> AllChars P r.
Proof.
  revert prev s. induction n as [|n IH]; intros prev s Hs.
  - destruct s; simpl; intros [= _ <-]; exact Hs.
  - destruct s as [|c s]; simpl; [discriminate|].
    destruct Hs as [_ Hs]. by apply IH.
Qed.

(** The capitals pattern never matches a lowercased text, whatever its
    [lastIndex]. *)
Lemma test_caps_lower lastIndex s :
  test matchCaps lastIndex (toLowerCase s) = (false, 0).
Proof.
  unfold test. destruct (seek None (toLowerCase s) lastIndex) as [[p r]|] eqn:E;
    [|reflexivity].
  rewrite exec_caps_lower; [reflexivity|].
  eapply seek_AllChars; [apply toLowerCase_no_upper | exact E].
Qed.

Lemma moderateContent_issues st title content :
  issues (moderateContent st title content).1 =
  checkMeaningful content (checkLength content
    (forEachPattern SUSPICIOUS_PATTERNS 0 (toLowerCase (title +:+ " " +:+ content))
       (checkBannedWords (toLowerCase (title +:+ " " +:+ content)) []) st).1).
Proof.
  unfold moderateContent.
  by destruct (forEachPattern _ _ _ _ _) as [l st'].
Qed.

Lemma moderateContent_approved st title content :
  approved (moderateContent st title content).1 =
  (length (issues (moderateContent st title content).1) =? 0).
Proof.
  unfold moderateContent.
  by destruct (forEachPattern _ _ _ _ _) as [l st'].
Qed.

(** Each check only appends to the list of issues. *)
Lemma checkLength_keeps content l x : x ∈ l -> x ∈ checkLength content l.
Proof.
  unfold checkLength. intros H.
  repeat case_match; rewrite ?elem_of_app; tauto.
Qed.

Lemma checkMeaningful_keeps content l x : x ∈ l -> x ∈ checkMeaningful content l.
Proof.
  unfold checkMeaningful. intros H.
  case_match; rewrite ?elem_of_app; tauto.
Qed.

Lemma forEachPattern_keeps ps index text l st x :
  x ∈ l -> x ∈ (forEachPattern ps index text l st).1.
Proof.
  revert index l st. induction ps as [|m ps IH]; intros index l st H; [exact H|].
  cbn [forEachPattern]. destruct (test m (st index) text) as [hit li].
  apply IH. destruct hit; rewrite ?elem_of_app; tauto.
Qed.

Lemma checkLength_adds content l x :
  x ∈ checkLength content l ->
  x ∈ l \/ x = "Content is too short" \/ x = "Content is too long".
Proof.
  unfold checkLength.
  repeat case_match; rewrite ?elem_of_app, ?list_elem_of_singleton; tauto.
Qed.

Lemma checkMeaningful_adds content l x :
  x ∈ checkMeaningful content l ->
  x ∈ l \/ x = "Content appears to lack sufficient meaningful text".
Proof.
  unfold checkMeaningful.
  case_match; rewrite ?elem_of_app, ?list_elem_of_singleton; tauto.
Qed.

Lemma checkBannedWords_adds text x :
  x ∈ checkBannedWords text [] ->
  x = "Contains banned words: " +:+ join ", " (foundBannedWords text).
Proof.
  unfold checkBannedWords.
  case_match; rewrite ?elem_of_app, ?list_elem_of_singleton, ?elem_of_nil; tauto.
Qed.

(** On a lowercased text the pattern loop can only report the first two
    patterns. *)
Lemma forEachPattern_lower s l st x :
  x ∈ (forEachPattern SUSPICIOUS_PATTERNS 0 (toLowerCase s) l st).1 ->
  x ∈ l \/ x = "Contains URLs" \/ x = "Contains long numbers".
Proof.
  unfold SUSPICIOUS_PATTERNS. cbn [forEachPattern].
  destruct (test matchUrl _ _) as [h1 i1].
  destruct (test matchLongNumber _ _) as [h2 i2].
  rewrite test_caps_lower. cbn [fst nth descriptions].
  destruct h1, h2; rewrite ?elem_of_app, ?list_elem_of_singleton; tauto.
Qed.

End Screener.

Section ScreenerClaims.
Import Js Moderation.

(** C1 (the code departs from it).  A run of five or more capitals is
    meant to add the issue "Contains excessive capitalization".  The
    patterns are tested on the lowercased text, so that issue is never
    reported: a notice whose content starts with "HELLO" is approved
    with no issue, and for no title, content and pattern state does the
    list of issues hold that message. *)
Theorem capitals_never_reported :
  (moderateContent initialState "Exam" "HELLO students please read this").1
    = {| approved := true; issues := []; severity := "low" |}
  /\ forall st title content,
       "Contains excessive capitalization" ∉ issues (moderateContent st title content).1.
Proof.
  split; [vm_compute; reflexivity|].
  intros st title content H.
  rewrite moderateContent_issues in H.
  apply checkMeaningful_adds in H as [H|H]; [|discriminate H].
  apply checkLength_adds in H as [H|[H|H]]; [|discriminate H..].
  apply forEachPattern_lower in H as [H|[H|H]]; [|discriminate H..].
  apply checkBannedWords_adds in H.
  rewrite !app_cons in H. discriminate H.
Qed.

(** C4 (the code departs from it).  Two calls with the same title and
    content do not return the same verdict: the patterns are global
    RegExp objects shared by all calls, and [test] leaves [lastIndex] at
    the end of the URL it found, so the second call searches behind it. *)
Theorem moderateContent_history :
  let title := "Notice" in
  let content := "Please visit http://example.com for details" in
  let first := moderateContent initialState title content in
  let second := moderateContent first.2 title content in
  first.1 = {| approved := false; issues := ["Contains URLs"]; severity := "medium" |}
  /\ second.1 = {| approved := true; issues := []; severity := "low" |}.
Proof. vm_compute. split; reflexivity. Qed.

(** C5.  When the title, a space and the content, put together, contain
    a banned word in any casing ([v] lowercases to the word), the
    verdict is not approved and its issues hold the entry
    "Contains banned words: ..." whose list of found words, joined by
    ", ", has that word. *)
Theorem banned_word_reported st title content pre v post word :
  word ∈ BANNED_WORDS ->
  title +:+ " " +:+ content = pre +:+ v +:+ post ->
  toLowerCase v = word ->
  let verdict := (moderateContent st title content).1 in
  let found := foundBannedWords (toLowerCase (title +:+ " " +:+ content)) in
  let entry := "Contains banned words: " +:+ join ", " found in
  approved verdict = false
  /\ entry ∈ issues verdict
  /\ word ∈ found
  /\ includes entry word = true.
Proof.
  intros Hw Htext Hv verdict found entry.
  assert (Hlow : toLowerCase word = word).
  { unfold BANNED_WORDS in Hw.
    repeat (apply elem_of_cons in Hw as [->|Hw]; [reflexivity|]).
    by apply elem_of_nil in Hw. }
  assert (Hfound : word ∈ found).
  { unfold found, foundBannedWords.
    apply list_elem_of_In, filter_In. split; [by apply list_elem_of_In|].
    rewrite Htext, !toLowerCase_app, Hv, Hlow. apply includes_factor. }
  assert (Hentry : entry ∈ issues verdict).
  { unfold verdict. rewrite moderateContent_issues.
    apply checkMeaningful_keeps, checkLength_keeps, forEachPattern_keeps.
    unfold checkBannedWords. fold found.
    destruct found as [|x l]; [by apply elem_of_nil in Hfound|].
    cbn [length Nat.ltb Nat.leb app]. apply list_elem_of_singleton. reflexivity. }
  split; [|split; [exact Hentry|split; [exact Hfound|]]].
  - unfold verdict in *. rewrite moderateContent_approved.
    destruct (issues _) as [|x l]; [by apply elem_of_nil in Hentry|reflexivity].
  - destruct (join_factor ", " found word Hfound) as (a & b & Hab).
    unfold entry. rewrite Hab, <- app_assoc_string. apply includes_factor.
Qed.

Lemma banned_word_reported_witness :
  let title := "Sale" in
  let content := "Cheap SpAm for all of you" in
  let verdict := (moderateContent initialState title content).1 in
  "spam" ∈ BANNED_WORDS
  /\ title +:+ " " +:+ content = "Sale Cheap " +:+ "SpAm" +:+ " for all of you"
  /\ toLowerCase "SpAm" = "spam"
  /\ approved verdict = false
  /\ "Contains banned words: spam" ∈ issues verdict.
Proof.
  intros title content verdict.
  assert (Hword : "spam" ∈ BANNED_WORDS).
  { unfold BANNED_WORDS. apply elem_of_cons. right. apply elem_of_cons. right.
    apply elem_of_cons. left. reflexivity. }
  assert (Htext : title +:+ " " +:+ content
                  = "Sale Cheap " +:+ "SpAm" +:+ " for all of you") by reflexivity.
  assert (Hlow : toLowerCase "SpAm" = "spam") by reflexivity.
  destruct (banned_word_reported initialState title content
              "Sale Cheap " "SpAm" " for all of you" "spam" Hword Htext Hlow)
    as (Ha & He & _).
  split_and!; [exact Hword | exact Htext | exact Hlow | exact Ha | exact He].
Defined.

End ScreenerClaims.

(** ** Sanitizer *)

Section Sanitizer.
Import Js Moderation.

Lemma replaceAll_NoMatch m repl prev s :
  NoMatch m prev s -> replaceAll m repl 0 prev s = s.
Proof.
  revert prev. induction s as [|c s IH]; intros prev; [reflexivity|].
  intros [Hm Hs]. cbn [replaceAll]. rewrite Hm. f_equal. by apply IH.
Qed.

Lemma replaceAll_prev m repl k p q s :
  IgnoresPrev m -> replaceAll m repl k p s = replaceAll m repl k q s.
Proof.
  intros Hm. revert k p q. induction s as [|c s IH]; intros k p q; [reflexivity|].
  cbn [replaceAll]. destruct k as [|k]; [|reflexivity].
  by rewrite (Hm p q).
Qed.

Lemma replaceAll_skip m repl k p s :
  IgnoresPrev m -> replaceAll m repl k p s = replaceAll m repl 0 None (drop k s).
Proof.
  intros Hm. revert p s. induction k as [|k IH]; intros p s.
  - destruct s; [reflexivity|]. by apply replaceAll_prev.
  - destruct s as [|c s]; [reflexivity|]. cbn [replaceAll drop]. apply IH.
Qed.

Lemma drop_countWhile p s : drop (countWhile p s) s = dropWhile p s.
Proof.
  induction s as [|c s IH]; [reflexivity|].
  cbn [countWhile dropWhile]. destruct (p c); [exact IH | reflexivity].
Qed.

Lemma countWhile_dropWhile p s : countWhile p (dropWhile p s) = 0.
Proof.
  induction s as [|c s IH]; [reflexivity|].
  cbn [dropWhile]. destruct (p c) eqn:E; [exact IH|].
  cbn [countWhile]. by rewrite E.
Qed.

Lemma length_dropWhile p s : String.length (dropWhile p s) <= String.length s.
Proof.
  induction s as [|c s IH]; [reflexivity|].
  cbn [dropWhile]. destruct (p c); cbn [String.length]; lia.
Qed.

Lemma IgnoresPrev_blank : IgnoresPrev matchBlankLines.
Proof. intros p q s. reflexivity. Qed.

Lemma IgnoresPrev_CR : IgnoresPrev matchCR.
Proof. intros p q s. reflexivity. Qed.

Lemma IgnoresPrev_CRLF : IgnoresPrev matchCRLF.
Proof. intros p q s. reflexivity. Qed.

(** The scan, one step: at a run of three or more line feeds the run is
    passed and two are written; otherwise the code unit is copied. *)
Lemma collapse_cons c s :
  collapse (String c s) =
  if isLF c && (2 <=? countWhile isLF s)
  then String LF (String LF (collapse (dropWhile isLF s)))
  else String c (collapse s).
Proof.
  unfold collapse, replace. cbn [replaceAll].
  unfold matchBlankLines at 1. cbn [countWhile].
  destruct (isLF c); cbn [andb].
  - change (3 <=? S (countWhile isLF s)) with (2 <=? countWhile isLF s).
    destruct (2 <=? countWhile isLF s).
    + rewrite (replaceAll_skip _ _ _ _ _ IgnoresPrev_blank), drop_countWhile.
      reflexivity.
    + f_equal. apply replaceAll_prev, IgnoresPrev_blank.
  - cbn [Nat.leb]. f_equal. apply replaceAll_prev, IgnoresPrev_blank.
Qed.

(** After the scan a run of line feeds has at most two of them. *)
Lemma countWhile_collapse n s :
  String.length s <= n ->
  countWhile isLF (collapse s) = Nat.min (countWhile isLF s) 2.
Proof.
  revert s. induction n as [|n IH]; intros s Hn.
  - destruct s; [reflexivity | cbn [String.length] in Hn; lia].
  - destruct s as [|c s]; [reflexivity|]. cbn [String.length] in Hn.
    rewrite collapse_cons. cbn [countWhile].
    destruct (isLF c) eqn:Ec; cbn [andb].
    + destruct (2 <=? countWhile isLF s) eqn:E2.
      * apply Nat.leb_le in E2.
        assert (Hlf : isLF LF = true) by reflexivity.
        cbn [countWhile]. rewrite Hlf.
        rewrite IH by (pose proof (length_dropWhile isLF s); lia).
        rewrite countWhile_dropWhile. lia.
      * apply Nat.leb_gt in E2.
        cbn [countWhile]. rewrite Ec. rewrite IH by lia. lia.
    + cbn [countWhile]. rewrite Ec. reflexivity.
Qed.

Lemma NoTriple_collapse n s : String.length s <= n -> NoTriple (collapse s).
Proof.
  revert s. induction n as [|n IH]; intros s Hn.
  - destruct s; [exact I | cbn [String.length] in Hn; lia].
  - destruct s as [|c s]; [exact I|]. cbn [String.length] in Hn.
    rewrite collapse_cons.
    destruct (isLF c) eqn:Ec; cbn [andb].
    + destruct (2 <=? countWhile isLF s) eqn:E2.
      * pose proof (length_dropWhile isLF s) as Hd.
        assert (Hlf : isLF LF = true) by reflexivity.
        assert (H0 : countWhile isLF (collapse (dropWhile isLF s)) = 0).
        { rewrite (countWhile_collapse n) by lia.
          rewrite countWhile_dropWhile. reflexivity. }
        cbn [NoTriple countWhile]. rewrite Hlf, H0.
        repeat split; [lia | lia | apply IH; lia].
      * apply Nat.leb_gt in E2.
        cbn [NoTriple countWhile]. rewrite Ec.
        rewrite (countWhile_collapse n) by lia.
        split; [lia | apply IH; lia].
    + cbn [NoTriple countWhile]. rewrite Ec.
      split; [lia | apply IH; lia].
Qed.

Lemma NoTriple_NoMatch prev s : NoTriple s -> NoMatch matchBlankLines prev s.
Proof.
  revert prev. induction s as [|c s IH]; intros prev; [exact (fun _ => I)|].
  intros [Hc Hs]. split; [|by apply IH].
  unfold matchBlankLines.
  destruct (3 <=? countWhile isLF (String c s)) eqn:E; [|reflexivity].
  apply Nat.leb_le in E. lia.
Qed.

Lemma NoCR_replace_CR prev s : NoCR (replaceAll matchCR sLF 0 prev s).
Proof.
  revert prev. induction s as [|c s IH]; intros prev; [exact I|].
  cbn [replaceAll matchCR].
  destruct (Ascii.eqb c CR) eqn:E.
  - split; [reflexivity | apply IH].
  - split; [exact E | apply IH].
Qed.

Lemma NoCR_collapse n s : String.length s <= n -> NoCR s -> NoCR (collapse s).
Proof.
  revert s. induction n as [|n IH]; intros s Hn Hs.
  - destruct s; [exact I | cbn [String.length] in Hn; lia].
  - destruct s as [|c s]; [exact I|]. cbn [String.length] in Hn.
    destruct Hs as [Hc Hs]. rewrite collapse_cons.
    destruct (isLF c && (2 <=? countWhile isLF s)).
    + repeat split. apply IH.
      * pose proof (length_dropWhile isLF s). lia.
      * clear -Hs. induction s as [|d s IHs]; [exact I|].
        destruct Hs as [Hd Hs]. cbn [dropWhile].
        destruct (isLF d); [by apply IHs | by split].
    + split; [exact Hc | apply IH; [lia | exact Hs]].
Qed.

Lemma NoCR_NoMatch_CR prev s : NoCR s -> NoMatch matchCR prev s.
Proof.
  revert prev. induction s as [|c s IH]; intros prev; [exact (fun _ => I)|].
  intros [Hc Hs]. split; [|by apply IH].
  cbn [matchCR]. by rewrite Hc.
Qed.

Lemma NoCR_NoMatch_CRLF prev s : NoCR s -> NoMatch matchCRLF prev s.
Proof.
  revert prev. induction s as [|c s IH]; intros prev; [exact (fun _ => I)|].
  intros [Hc Hs]. split; [|by apply IH].
  unfold matchCRLF. cbn [startsWith].
  rewrite Ascii.eqb_sym, Hc. reflexivity.
Qed.

End Sanitizer.

Section Trim.
Import Js Moderation.

Lemma trimStart_head s :
  trimStart s = EmptyString \/
  exists c r, trimStart s = String c r /\ isWhiteSpace c = false.
Proof.
  induction s as [|c s IH]; [by left|].
  cbn [trimStart]. destruct (isWhiteSpace c) eqn:E; [exact IH|].
  right. by exists c, s.
Qed.

Lemma trimEnd_head c r :
  isWhiteSpace c = false -> exists r', trimEnd (String c r) = String c r'.
Proof.
  intros E. cbn [trimEnd]. destruct (trimEnd r) as [|d r'].
  - rewrite E. by eexists.
  - by eexists.
Qed.

Lemma trimEnd_idempotent s : trimEnd (trimEnd s) = trimEnd s.
Proof.
  induction s as [|c s IH]; [reflexivity|].
  cbn [trimEnd]. destruct (trimEnd s) as [|d r] eqn:E.
  - destruct (isWhiteSpace c) eqn:Ec; [reflexivity|].
    cbn [trimEnd]. by rewrite Ec.
  - change (trimEnd (String c (String d r))) with
      (match trimEnd (String d r) with
       | EmptyString => if isWhiteSpace c then EmptyString else String c EmptyString
       | x => String c x
       end).
    by rewrite IH.
Qed.

Lemma trim_idempotent s : trim (trim s) = trim s.
Proof.
  unfold trim. destruct (trimStart_head s) as [->|(c & r & -> & Hc)]; [reflexivity|].
  destruct (trimEnd_head c r Hc) as [r' Hr]. rewrite Hr.
  cbn [trimStart]. rewrite Hc, <- Hr. apply trimEnd_idempotent.
Qed.

Lemma AllChars_trimStart P s : AllChars P s -> AllChars P (trimStart s).
Proof.
  induction s as [|c s IH]; [exact (fun H => H)|].
  intros [Hc Hs]. cbn [trimStart]. destruct (isWhiteSpace c); [by apply IH | by split].
Qed.

Lemma AllChars_trimEnd P s : AllChars P s -> AllChars P (trimEnd s).
Proof.
  induction s as [|c s IH]; [exact (fun H => H)|].
  intros [Hc Hs]. cbn [trimEnd]. specialize (IH Hs).
  destruct (trimEnd s); [destruct (isWhiteSpace c)|]; simpl in *; tauto.
Qed.

Lemma NoTriple_trimStart s : NoTriple s -> NoTriple (trimStart s).
Proof.
  induction s as [|c s IH]; [exact (fun H => H)|].
  intros [Hc Hs]. cbn [trimStart]. destruct (isWhiteSpace c); [by apply IH | by split].
Qed.

Lemma countWhile_trimEnd p s : countWhile p (trimEnd s) <= countWhile p s.
Proof.
  induction s as [|c s IH]; [reflexivity|].
  cbn [trimEnd]. destruct (trimEnd s) as [|d r].
  - destruct (isWhiteSpace c); cbn [countWhile]; destruct (p c); lia.
  - cbn [countWhile] in *. destruct (p c); lia.
Qed.

Lemma NoTriple_trimEnd s : NoTriple s -> NoTriple (trimEnd s).
Proof.
  induction s as [|c s IH]; [exact (fun H => H)|].
  intros [Hc Hs]. specialize (IH Hs).
  pose proof (countWhile_trimEnd isLF (String c s)) as Hle.
  cbn [trimEnd] in *. destruct (trimEnd s) as [|d r].
  - destruct (isWhiteSpace c); [exact I|]. split; [lia | exact I].
  - split; [lia | exact IH].
Qed.

(** What [sanitizeContent] returns: no carriage return, no run of three
    line feeds, no white space at either end. *)
Lemma sanitizeContent_normal content :
  let r := sanitizeContent content in
  NoCR r /\ NoTriple r /\ trim r = r.
Proof.
  unfold sanitizeContent. fold (collapse (replace matchCR sLF (replace matchCRLF sLF content))).
  set (z := replace matchCR sLF _).
  assert (Hz : NoCR z) by apply NoCR_replace_CR.
  split; [|split].
  - apply AllChars_trimEnd, AllChars_trimStart.
    by apply (NoCR_collapse (String.length z)).
  - apply NoTriple_trimEnd, NoTriple_trimStart.
    by apply (NoTriple_collapse (String.length z)).
  - apply trim_idempotent.
Qed.

(** C6.  [sanitizeContent] is idempotent: sanitising a sanitised text
    gives it back. *)
Theorem sanitizeContent_idempotent x :
  Moderation.sanitizeContent (Moderation.sanitizeContent x) = Moderation.sanitizeContent x.
Proof.
  destruct (sanitizeContent_normal x) as (Hcr & Htr & Htrim).
  set (y := sanitizeContent x) in *.
  unfold sanitizeContent at 1. unfold replace.
  rewrite (replaceAll_NoMatch matchCRLF) by (by apply NoCR_NoMatch_CRLF).
  rewrite (replaceAll_NoMatch matchCR) by (by apply NoCR_NoMatch_CR).
  rewrite (replaceAll_NoMatch matchBlankLines) by (by apply NoTriple_NoMatch).
  exact Htrim.
Qed.

(** The example of the specification: four line feeds between two
    letters become two. *)
Example sanitizeContent_blank_lines :
  sanitizeContent ("a" +:+ sLF +:+ sLF +:+ sLF +:+ sLF +:+ "b")
  = "a" +:+ sLF +:+ sLF +:+ "b".
Proof. reflexivity. Qed.

End Trim.

(** ** View tracker *)

Section ViewTrackerFacts.
Import Schema ViewTracker.


Lemma viewer_newViews viewer clock seen batch :
  Forall (fun r => user_id r = viewer) (newViews viewer clock seen batch).
Proof.
  unfold newViews. generalize (List.filter (fun notice => negb (bool_decide (id notice ∈ seen))) batch).
  intros l. revert clock. induction l as [|n l IH]; intros clock; [constructor|].
  rewrite imap_cons. constructor; [reflexivity | apply IH].
Qed.



(** A call that nothing interrupts is its two halves, one after the
    other. *)
Lemma trackNoticeViews_split viewer clock insertError batch w :
  trackNoticeViews viewer clock insertError batch w
  = let r := request viewer clock insertError batch w in
    from_option (fun s => resume s r.1) r.1 r.2.
Proof.
  unfold trackNoticeViews, request. cbv zeta.
  destruct (0 <? length _); [|reflexivity]. by destruct insertError.
Qed.

(** Rows without a user are refused, whoever sends them. *)
Lemma insertAnswer_null uid refusal fault d rows :
  rows <> [] ->
  Forall (fun row => user_id row = None) rows ->
  insertAnswer uid refusal fault d rows <> None.
Proof.
  intros Hne Hrows. unfold insertAnswer. destruct fault; [done|].
  destruct Hrows as [|row rows Hrow _]; [done|].
  cbn [forallb]. unfold canCreateView. rewrite Hrow.
  by destruct uid.
Qed.

Lemma step_public p t e :
  viewer p = None ->
  Forall (fun s => error s <> None) (awaiting t) ->
  world (step p t e) = world t
  /\ Forall (fun s => error s <> None) (awaiting (step p t e)).
Proof.
  intros Hp Ht. destruct e as [c|k]; cbn [step].
  - cbv zeta. unfold request. cbv zeta.
    set (rows := newViews (viewer p) (call_clock c)
                   (default [] (viewed_notices (world t))) (call_batch c)).
    destruct (0 <? length rows) eqn:Hlen; cbn [fst snd option_list world awaiting].
    + assert (Herr : insertAnswer (auth_uid p) (refusal p) (call_fault c)
                       (db (world t)) rows <> None).
      { apply insertAnswer_null.
        - intros E. rewrite E in Hlen. discriminate.
        - unfold rows. rewrite Hp. apply (viewer_newViews None). }
      destruct (insertAnswer _ _ _ _ rows) as [err|]; [|done].
      split; [reflexivity|]. apply Forall_app. split; [exact Ht|].
      by constructor.
    + split; [reflexivity|]. by rewrite app_nil_r.
  - destruct (awaiting t !! k) as [s|] eqn:Hk; [|done]. cbn [world awaiting].
    split.
    + pose proof (Forall_lookup_1 _ _ _ _ Ht Hk) as Hs. cbn beta in Hs.
      unfold resume. by destruct (error s).
    + by apply Forall_delete.
Qed.

(** C7 (the code departs from it).  On the public page the tracker
    stores nothing: the rows it builds have no user, the database
    accepts only rows whose user is the caller, and so it refuses every
    insert; the call then leaves the seen-set as it is.  Whatever calls
    start and resume in a session, in whatever order, and whoever is
    signed in, the table of views and the seen-set stay as they were. *)
Theorem trackNoticeViews_public_stores_nothing p events w :
  viewer p = None ->
  world (session p events w) = w.
Proof.
  intros Hp. unfold session.
  set (t := {| world := w; awaiting := [] |}).
  change w with (world t).
  assert (Ht : Forall (fun s => error s <> None) (awaiting t)) by constructor.
  clearbody t. revert t Ht.
  induction events as [|e events IH]; intros t Ht; [reflexivity|].
  cbn [foldl]. destruct (step_public p t e Hp Ht) as [Hw Ht'].
  rewrite (IH _ Ht'). exact Hw.
Qed.

Lemma trackNoticeViews_public_stores_nothing_witness :
  let w := {| db := noticeBoard; viewed_notices := Some ["A"] |} in
  let w' := world (session (publicPage (Some "admin-1"))
                     [started (sampleCall [visibleNotice "A"; visibleNotice "B"]);
                      resumed 0] w) in
  viewer (publicPage (Some "admin-1")) = None
  /\ notice_views (db w') = []
  /\ viewed_notices w' = Some ["A"].
Proof.
  intros w w'. split; [reflexivity|].
  unfold w'.
  rewrite (trackNoticeViews_public_stores_nothing (publicPage (Some "admin-1")) _ w eq_refl).
  by split.
Defined.

(** On the student dashboard the rows carry the signed-in user and the
    database accepts them.  There a call that starts while another is
    suspended reads the seen-set the other has not written yet: the
    same notice is stored twice. *)
Example trackNoticeViews_overlap :
  let w := {| db := noticeBoard; viewed_notices := None |} in
  let c := sampleCall [visibleNotice "A"] in
  let t := session (studentDashboard "staff-1")
             [started c; started c; resumed 0; resumed 0] w in
  notice_id <$> notice_views (db (world t)) = ["A"; "A"]
  /\ user_id <$> notice_views (db (world t)) = [Some "staff-1"; Some "staff-1"]
  /\ viewed_notices (world t) = Some ["A"]
  /\ awaiting t = [].
Proof.
  vm_compute. by split_and!.
Qed.

End ViewTrackerFacts.

(** ** Notice lifecycle *)

Section LifecycleFacts.
Import Schema Lifecycle.

Lemma updateNotice_others rq patch nid d d' k :
  updateNotice rq patch nid d = inr d' ->
  k <> nid ->
  notices d' !! k = notices d !! k.
Proof.
  unfold updateNotice. destruct (notices d !! nid) as [n|]; [|by intros [= <-]].
  destruct (visible rq n && canUpdateNotice d (auth_uid rq) n); [|by intros [= <-]].
  cbv zeta. destruct (visible rq _ && canUpdateNotice d (auth_uid rq) _); [|discriminate].
  intros [= <-] Hk. cbn [setNotices notices]. by apply lookup_insert_ne.
Qed.

(** A row the caller may read is approved, and the caller may update it:
    the SELECT policy asks for the author or an administrator, as the
    UPDATE policy does. *)
Lemma canViewNotice_inv d reached uid n :
  canViewNotice d reached uid n = true ->
  status n = Approved /\ canUpdateNotice d uid n = true.
Proof.
  unfold canViewNotice, canUpdateNotice. destruct uid as [u|]; [|discriminate].
  rewrite !andb_true_iff, bool_decide_eq_true. tauto.
Qed.

Lemma canViewNotice_pending d reached uid n :
  status n <> Approved -> canViewNotice d reached uid n = false.
Proof.
  intros Hs. destruct (canViewNotice d reached uid n) eqn:E; [|reflexivity].
  by apply canViewNotice_inv in E as [? _].
Qed.

(** The request of [handleApprove] under the SELECT policy: a row the
    caller may read is approved already, and is written again. *)
Lemma approve_in_force rq reached now nid d n :
  notices d !! nid = Some n ->
  InForce d reached rq ->
  updateNotice rq (fun n => setApprovedAt (setStatus n Approved) (Some now)) nid d
  = if visible rq n
    then inr (setNotices d
                (<[nid := update_updated_at (dbNow rq)
                            (setApprovedAt (setStatus n Approved) (Some now))]>
                   (notices d)))
    else inr d.
Proof.
  intros Hn Hforce. unfold updateNotice. rewrite Hn. cbv zeta. rewrite !Hforce.
  destruct (canViewNotice d reached (auth_uid rq) n) eqn:Hvis; [|reflexivity].
  destruct (canViewNotice_inv _ _ _ _ Hvis) as [Hst Hcan]. rewrite Hcan.
  cbn [andb].
  assert (Hnew : canViewNotice d reached (auth_uid rq)
                   (update_updated_at (dbNow rq)
                      (setApprovedAt (setStatus n Approved) (Some now))) = true).
  { revert Hvis. unfold canViewNotice. destruct (auth_uid rq); [|done].
    cbn [status publish_at author_id update_updated_at setApprovedAt setStatus].
    rewrite Hst. by rewrite !bool_decide_eq_true_2 by done. }
  rewrite Hnew. cbn [andb].
  change (canUpdateNotice d (auth_uid rq) (update_updated_at _ _))
    with (canUpdateNotice d (auth_uid rq) n).
  by rewrite Hcan.
Qed.


Lemma requestOf_in_force uid d : InForce d (fun _ => true) (requestOf uid d).
Proof. by intros n. Qed.

Lemma sampleDatabase_row s : notices (sampleDatabase s) !! "n-1" = Some (sampleNotice s).
Proof. apply lookup_singleton_eq. Qed.

(** C2 (the code departs from it).  Under the SELECT policy of the
    repository a request of [handleApprove] that the service answers
    always reports a success, and: a pending notice is left as it is,
    still pending, with no approver and no approval time written; the
    approver column is never written, whatever the notice; a notice the
    caller may not read is left as it is; and a notice the caller may
    read, which is approved already, gets the caller's clock as its
    approval time. *)
Theorem handleApprove_no_approver rq reached now notice d n :
  notices d !! id notice = Some n ->
  InForce d reached rq ->
  fault rq = None ->
  let a := handleApprove rq now notice d in
  toast_title (toast a.2) = "Notice approved"
  /\ destructive (toast a.2) = false
  /\ (status n = Pending -> a.1 = d)
  /\ exists n',
       notices a.1 !! id notice = Some n'
       /\ approved_by n' = approved_by n
       /\ (visible rq n = false -> a.1 = d)
       /\ (visible rq n = true ->
             status n = Approved /\ status n' = Approved
             /\ approved_at n' = Some now /\ updated_at n' = dbNow rq).
Proof.
  intros Hn Hforce Hfault a. unfold a, handleApprove. rewrite Hfault.
  rewrite (approve_in_force rq reached now (id notice) d n Hn Hforce).
  destruct (visible rq n) eqn:Hvis; cbn [fst snd toast toast_title destructive].
  - rewrite Hforce in Hvis. destruct (canViewNotice_inv _ _ _ _ Hvis) as [Hst _].
    split_and!; [done | done | by rewrite Hst |].
    eexists. cbn [setNotices notices]. rewrite lookup_insert_eq.
    split; [reflexivity|]. split; [reflexivity|]. by split_and!.
  - split_and!; [done | done | done |]. exists n. by split_and!.
Qed.

Lemma handleApprove_no_approver_witness :
  let d := sampleDatabase Pending in
  let a := handleApprove (adminRequest d) "2025-10-02T09:00:00.000Z"
             (sampleNotice Pending) d in
  has_role d "admin-1" admin = true
  /\ toast_title (toast a.2) = "Notice approved"
  /\ a.1 = d
  /\ notices a.1 !! "n-1" = Some (sampleNotice Pending)
  /\ status (sampleNotice Pending) = Pending
  /\ approved_by (sampleNotice Pending) = None
  /\ approved_at (sampleNotice Pending) = None.
Proof.
  intros d a.
  destruct (handleApprove_no_approver (adminRequest d) (fun _ => true)
              "2025-10-02T09:00:00.000Z" (sampleNotice Pending) d (sampleNotice Pending)
              (sampleDatabase_row Pending) (requestOf_in_force "admin-1" d) eq_refl)
    as (Htitle & _ & Hsame & _).
  fold a in Htitle, Hsame. specialize (Hsame eq_refl).
  split_and!; try done; rewrite Hsame; apply sampleDatabase_row.
Defined.




End LifecycleFacts.

(** ** Notice creation *)

Section CreateNoticeFacts.
Import CreateNotice.

(** The row [handleSubmit] inserts is pending, whatever the screener
    said. *)
Lemma noticeData_pending form moderationApproved uid sv :
  Schema.status (noticeData form moderationApproved uid sv) = Schema.Pending.
Proof. by destruct moderationApproved as [[]|]. Qed.

(** The insert answers with the row it stores, so a row that is not
    approved, which its own author may not read, is refused. *)
Lemma insertNotice_refused sv uid row d :
  Schema.status row <> Schema.Approved ->
  insertNotice sv uid row d = inl (default (refusal sv) (noticeFault sv)).
Proof.
  intros Hst. unfold insertNotice. destruct (noticeFault sv) as [e|]; [reflexivity|].
  unfold Lifecycle.canViewNotice. rewrite (bool_decide_eq_false_2 _ Hst).
  cbn [andb]. by rewrite !andb_false_r.
Qed.


(** A member of staff submits a form the screener flags, with one
    attachment, at a time the insert of attachments would fail: the
    insert of the notice is refused before, nothing is stored, and the
    toast reads "Unknown error". *)
Example handleSubmit_sample :
  let d := sampleDatabase Schema.Pending in
  let r := handleSubmit sampleServices sampleForm [sampleAttachment] (Some false) d in
  staffOrAdmin d "staff-1" = true
  /\ r.1 = d
  /\ toast r.2 = {| Schema.toast_title := "Error";
                    Schema.toast_description := "Unknown error";
                    Schema.destructive := true |}
  /\ completed r.2 = false.
Proof.
  cbv zeta. unfold handleSubmit. cbn [user sampleServices].
  rewrite insertNotice_refused by (rewrite noticeData_pending; discriminate).
  by split_and!.
Qed.

End CreateNoticeFacts.

(** ** Role store *)

Section RoleStoreFacts.
Import Schema RoleStore.

Lemma requestedRole_provided v NEW :
  requestedRole v NEW =
  match providedRole v NEW with
  | Some label => to_app_role label
  | None => inr student
  end.
Proof.
  unfold requestedRole, providedRole.
  destruct (role (raw_user_meta_data NEW)); [reflexivity|].
  destruct v; [reflexivity|]. by destruct (role (raw_app_meta_data NEW)).
Qed.

(** What a successful run of the trigger does to the tables. *)
Lemma handle_new_user_inv v NEW d d' :
  handle_new_user v NEW d = inr d' ->
  exists e r,
    email NEW = Some e
    /\ profiles d !! id NEW = None
    /\ profiles d' = <[id NEW := {| Schema.full_name := displayName v NEW;
                                    Schema.email := e |}]> (profiles d)
    /\ user_roles d' = user_roles d ++ [(id NEW, r)]
    /\ (if size (profiles d) =? 0 then r = admin else requestedRole v NEW = inr r).
Proof.
  unfold handle_new_user, insertProfile.
  destruct (email NEW) as [e|]; [|discriminate].
  destruct (profiles d !! id NEW) eqn:Hfresh; [discriminate|].
  cbn [profiles]. rewrite (map_size_insert_None _ _ _ Hfresh).
  change (S (size (profiles d)) =? 1) with (size (profiles d) =? 0).
  destruct (size (profiles d) =? 0) eqn:Hsize.
  - unfold insertUserRole. case_match; [discriminate|].
    intros [= <-]. exists e, admin. cbn [profiles user_roles]. by split_and!.
  - destruct (requestedRole v NEW) as [err|r] eqn:Hreq; [discriminate|].
    unfold insertUserRole. case_match; [discriminate|].
    intros [= <-]. exists e, r. cbn [profiles user_roles]. by split_and!.
Qed.

Lemma created_size n d : created n d -> size (profiles d) = n.
Proof.
  induction 1 as [|n d v NEW d' Hd IH Hrun|n d roles Hd IH Hroles|n d u Hd IH Hu];
    [apply map_size_empty| |exact IH|].
  - destruct (handle_new_user_inv _ _ _ _ Hrun) as (e & r & _ & Hfresh & -> & _).
    by rewrite (map_size_insert_None _ _ _ Hfresh), IH.
  - cbn [cascade profiles]. by rewrite (map_size_delete_Some _ _ Hu), IH.
Qed.

(** Every role row references a profile. *)
Lemma created_references n d :
  created n d -> forall u r, (u, r) ∈ user_roles d -> is_Some (profiles d !! u).
Proof.
  induction 1 as [|n d v NEW d' Hd IH Hrun|n d roles Hd IH Hroles|n d w Hd IH Hw];
    intros u r Hu.
  - by apply elem_of_nil in Hu.
  - destruct (handle_new_user_inv _ _ _ _ Hrun) as (e & r' & _ & _ & -> & Hr & _).
    rewrite Hr in Hu. apply elem_of_app in Hu as [Hu|Hu].
    + destruct (decide (id NEW = u)) as [->|Hne].
      * rewrite lookup_insert_eq. by eexists.
      * rewrite lookup_insert_ne by done. by eapply IH.
    + apply list_elem_of_singleton in Hu as [= -> ->].
      rewrite lookup_insert_eq. by eexists.
  - by eapply Hroles.
  - cbn [cascade user_roles profiles] in *.
    apply list_elem_of_In, filter_In in Hu as [Hu Hne]. cbn [fst] in Hne.
    apply negb_true_iff, String.eqb_neq in Hne.
    rewrite lookup_delete_ne by done. eapply IH. by apply list_elem_of_In.
Qed.

Lemma created_0 d : created 0 d -> profiles d = ∅ /\ user_roles d = [].
Proof.
  intros Hd. pose proof (created_size _ _ Hd) as Hsize.
  apply map_size_empty_inv in Hsize. split; [exact Hsize|].
  destruct (user_roles d) as [|[u r] l] eqn:E; [reflexivity|].
  destruct (created_references _ _ Hd u r) as [p Hp].
  - rewrite E. apply elem_of_cons. by left.
  - rewrite Hsize, lookup_empty in Hp. discriminate.
Qed.

(** C9, as stated, fails: the second identity ever created, with no role
    given, is made admin when the first is gone by then.  The first
    identity, the administrator, changes its own role in the role
    dialog, which leaves it without a role row, and is removed; the
    table of profiles is empty again when the second identity is
    created. *)
Lemma second_identity_admin :
  exists d1 d3 d4,
    handle_new_user OAuth firstUser emptyDatabase = inr d1
    /\ user_roles d1 = [("u-1", admin)]
    /\ user_roles (RoleDialog.handleUpdateRole (roleServicesOf "u-1") "u-1" "staff" d1).1
       = []
    /\ delete_user "u-1"
         (RoleDialog.handleUpdateRole (roleServicesOf "u-1") "u-1" "staff" d1).1
       = inr d3
    /\ providedRole OAuth secondUser = None
    /\ handle_new_user OAuth secondUser d3 = inr d4
    /\ user_roles d4 = [("u-2", admin)].
Proof. eexists _, _, _. split_and!; vm_compute; reflexivity. Qed.

(** C9, amended.  In a system that holds [n] identities: when it holds
    none, the creation of an identity with an e-mail address succeeds;
    and every creation that succeeds adds one role for the new
    identity, which is admin when no identity exists ([n = 0]: the
    first identity ever created, or one created after all the earlier
    ones were removed), whatever role was given, and otherwise the role
    given at creation, student when none was given. *)
Theorem handle_new_user_first_admin n d v NEW :
  created n d ->
  (n = 0 -> is_Some (email NEW) -> exists d', handle_new_user v NEW d = inr d')
  /\ (forall d',
        handle_new_user v NEW d = inr d' ->
        created (S n) d'
        /\ exists r,
             user_roles d' = user_roles d ++ [(id NEW, r)]
             /\ (n = 0 -> r = admin)
             /\ (n <> 0 -> providedRole v NEW = None -> r = student)
             /\ (n <> 0 -> forall label,
                   providedRole v NEW = Some label -> to_app_role label = inr r)).
Proof.
  intros Hn. pose proof (created_size n d Hn) as Hsize. split.
  - intros -> [e He]. apply created_0 in Hn as [Hp Hr].
    unfold handle_new_user, insertProfile. rewrite He, Hp, lookup_empty.
    cbn [profiles]. rewrite map_size_insert_None by apply lookup_empty.
    rewrite map_size_empty. cbn [Nat.eqb]. unfold insertUserRole, has_role.
    cbn [user_roles]. rewrite Hr. cbn [existsb]. by eexists.
  - intros d' Hrun. split; [by econstructor|].
    destruct (handle_new_user_inv _ _ _ _ Hrun) as (e & r & _ & _ & _ & Hroles & Hr).
    exists r. rewrite Hsize in Hr. split; [exact Hroles|].
    destruct n as [|n]; cbn [Nat.eqb] in Hr.
    + by split_and!.
    + rewrite requestedRole_provided in Hr. split_and!; [done | |].
      * intros _ Hnone. rewrite Hnone in Hr. by injection Hr as <-.
      * intros _ label Hl. by rewrite Hl in Hr.
Qed.

Lemma handle_new_user_first_admin_witness :
  exists d1 d2,
    handle_new_user OAuth firstUser emptyDatabase = inr d1
    /\ user_roles d1 = [("u-1", admin)]
    /\ handle_new_user OAuth secondUser d1 = inr d2
    /\ user_roles d2 = [("u-1", admin); ("u-2", student)].
Proof.
  destruct (handle_new_user_first_admin 0 emptyDatabase OAuth firstUser created_none)
    as [Hruns Hrole].
  destruct Hruns as [d1 Hd1]; [reflexivity | by eexists |].
  destruct (Hrole d1 Hd1) as (Hc1 & r1 & Hr1 & Hadmin & _).
  rewrite (Hadmin eq_refl) in Hr1.
  assert (Hd2 : exists d2, handle_new_user OAuth secondUser d1 = inr d2).
  { destruct (handle_new_user_inv _ _ _ _ Hd1) as (e & r & _ & _ & Hp & _ & _).
    unfold handle_new_user, insertProfile. cbn [email secondUser RoleStore.id].
    rewrite Hp. cbn [emptyDatabase profiles firstUser RoleStore.id].
    rewrite lookup_insert_ne by discriminate. rewrite lookup_empty.
    cbn [profiles]. rewrite !map_size_insert_None, map_size_empty;
      [|apply lookup_empty|by rewrite lookup_insert_ne, lookup_empty by discriminate].
    cbn [Nat.eqb requestedRole raw_user_meta_data role raw_app_meta_data].
    unfold insertUserRole, has_role. cbn [user_roles]. rewrite Hr1.
    cbn [emptyDatabase user_roles app existsb]. by eexists. }
  destruct Hd2 as [d2 Hd2].
  destruct (handle_new_user_first_admin 1 d1 OAuth secondUser Hc1) as [_ Hrole2].
  destruct (Hrole2 d2 Hd2) as (_ & r2 & Hr2 & _ & Hstudent & _).
  rewrite (Hstudent ltac:(discriminate) eq_refl), Hr1 in Hr2.
  exists d1, d2. by split_and!.
Defined.

End RoleStoreFacts.

(** ** File upload *)

Section UploadFacts.
Import Upload.

(** C10.  A file of more than 10485760 bytes is refused with the error
    "File size must be less than 10MB" and the storage receives no
    request, so no metadata is returned for it.  A file of at most that
    size is sent to the storage in exactly one upload request, and when
    the storage accepts it the metadata holds the public URL of the
    path, the coarse type and the size of the file. *)
Theorem uploadFile_size_limit env file st :
  ((10485760 < size file)%N ->
     uploadFile env file st = (inl "File size must be less than 10MB", st))
  /\ ((size file <= 10485760)%N ->
        uploadCalls (uploadFile env file st).2
          = uploadCalls st ++ [(BUCKET_NAME, filePath env file)]
        /\ (uploadError env = None ->
              (uploadFile env file st).1
                = inr {| url := getPublicUrl env BUCKET_NAME (filePath env file);
                         uploaded_type := getFileType file;
                         uploaded_size := size file |}
              /\ objects (uploadFile env file st).2
                   = objects st ++ [(BUCKET_NAME, filePath env file, file)])).
Proof.
  unfold uploadFile.
  change (10 * 1024 * 1024)%N with 10485760%N.
  split; intros Hsize.
  - apply N.ltb_lt in Hsize. by rewrite Hsize.
  - apply N.ltb_ge in Hsize. rewrite Hsize. unfold upload.
    destruct (uploadError env) as [e|]; cbn [fst snd uploadCalls objects];
      (split; [reflexivity|]); [discriminate | done].
Qed.

Lemma uploadFile_size_limit_witness :
  let big := {| name := "film.mp4"; type := "video/mp4"; size := 10485761 |} in
  let small := {| name := "poster.final.png"; type := "image/png"; size := 10485760 |} in
  uploadFile sampleEnvironment big emptyStorage
    = (inl "File size must be less than 10MB", emptyStorage)
  /\ uploadCalls (uploadFile sampleEnvironment small emptyStorage).2
     = [("attachments", "notice_attachments/1759486800000-k3x9qa.png")].
Proof.
  intros big small. split.
  - apply (proj1 (uploadFile_size_limit sampleEnvironment big emptyStorage)).
    reflexivity.
  - apply (proj2 (uploadFile_size_limit sampleEnvironment small emptyStorage)).
    discriminate.
Defined.

End UploadFacts.

(** ** More on the sanitizer *)

Section SanitizerMore.
Import Js Moderation.

Lemma startsWith_LF3 s :
  startsWith s (sLF +:+ sLF +:+ sLF) = true <-> 3 <= countWhile isLF s.
Proof.
  change (sLF +:+ sLF +:+ sLF) with (String LF (String LF (String LF EmptyString))).
  unfold isLF.
  destruct s as [|a [|b [|c s]]]; cbn [startsWith countWhile];
    rewrite ?(Ascii.eqb_sym LF);
    repeat (match goal with |- context [Ascii.eqb ?x LF] => destruct (Ascii.eqb x LF) end);
    cbn [countWhile]; split; intros H; try discriminate H; try reflexivity; lia.
Qed.

Lemma includes_LF3_NoTriple s :
  includes s (sLF +:+ sLF +:+ sLF) = false <-> NoTriple s.
Proof.
  induction s as [|c s IH].
  - split; [exact (fun _ => I) | reflexivity].
  - cbn [includes NoTriple].
    destruct (startsWith (String c s) (sLF +:+ sLF +:+ sLF)) eqn:E.
    + apply startsWith_LF3 in E. split; [discriminate | intros [H _]; lia].
    + rewrite IH. split; [|tauto]. intros H. split; [|exact H].
      destruct (decide (3 <= countWhile isLF (String c s))) as [Hge|]; [|lia].
      apply startsWith_LF3 in Hge. congruence.
Qed.

Lemma includes_CR_NoCR s : includes s sCR = false <-> NoCR s.
Proof.
  unfold NoCR, sCR. induction s as [|c s IH].
  - split; [exact (fun _ => I) | reflexivity].
  - cbn [includes startsWith AllChars]. rewrite (Ascii.eqb_sym CR).
    destruct (Ascii.eqb c CR); [split; [discriminate | intros [H _]; discriminate H]|].
    rewrite IH. tauto.
Qed.

(** X1.  Whatever the input, the sanitised text holds no carriage
    return and no three line feeds in a row, and trimming it changes
    nothing. *)
Theorem sanitizeContent_shape x :
  let r := sanitizeContent x in
  includes r sCR = false
  /\ includes r (sLF +:+ sLF +:+ sLF) = false
  /\ trim r = r.
Proof.
  destruct (sanitizeContent_normal x) as (Hcr & Htr & Htrim).
  cbn zeta. by rewrite includes_CR_NoCR, includes_LF3_NoTriple.
Qed.

Lemma length_app_string (a b : string) :
  String.length (a +:+ b) = String.length a + String.length b.
Proof.
  induction a as [|c a IH]; [reflexivity|].
  rewrite app_cons. cbn [String.length]. by rewrite IH.
Qed.

Lemma length_replaceAll m repl k prev s :
  Shrinking m repl ->
  String.length (replaceAll m repl k prev s) <= String.length s - k.
Proof.
  intros Hm. revert k prev. induction s as [|c s IH]; intros k prev; [cbn; lia|].
  cbn [replaceAll]. destruct k as [|k].
  - destruct (m prev (String c s)) as [[|n]|] eqn:E.
    + cbn [String.length]. specialize (IH 0 (Some c)). lia.
    + destruct (Hm _ _ _ E) as [Hr Hn]. cbn [String.length] in *.
      rewrite length_app_string. specialize (IH n (Some c)). lia.
    + cbn [String.length]. specialize (IH 0 (Some c)). lia.
  - cbn [String.length]. specialize (IH k (Some c)). lia.
Qed.

Lemma length_replace m repl s :
  Shrinking m repl -> String.length (replace m repl s) <= String.length s.
Proof.
  intros Hm. pose proof (length_replaceAll m repl 0 None s Hm). unfold replace. lia.
Qed.

Lemma countWhile_le p s : countWhile p s <= String.length s.
Proof.
  induction s as [|c s IH]; [reflexivity|].
  cbn [countWhile String.length]. destruct (p c); lia.
Qed.

Lemma Shrinking_CRLF : Shrinking matchCRLF sLF.
Proof.
  intros p s n. unfold matchCRLF.
  destruct s as [|a [|b s]]; cbn [startsWith];
    repeat (match goal with |- context [Ascii.eqb ?x ?y] => destruct (Ascii.eqb x y) end);
    intros [= <-]; cbn; lia.
Qed.

Lemma Shrinking_CR : Shrinking matchCR sLF.
Proof.
  intros p s n. destruct s as [|a s]; cbn [matchCR]; [discriminate|].
  destruct (Ascii.eqb a CR); intros [= <-]; cbn; lia.
Qed.

Lemma Shrinking_blank : Shrinking matchBlankLines (sLF +:+ sLF).
Proof.
  intros p s n. unfold matchBlankLines.
  destruct (3 <=? countWhile isLF s) eqn:E; intros [= <-].
  apply Nat.leb_le in E. pose proof (countWhile_le isLF s).
  change (String.length (sLF +:+ sLF)) with 2. lia.
Qed.

Lemma length_trimStart s : String.length (trimStart s) <= String.length s.
Proof.
  induction s as [|c s IH]; [reflexivity|].
  cbn [trimStart]. destruct (isWhiteSpace c); cbn [String.length]; lia.
Qed.

Lemma length_trimEnd s : String.length (trimEnd s) <= String.length s.
Proof.
  induction s as [|c s IH]; [reflexivity|].
  cbn [trimEnd]. destruct (trimEnd s); [destruct (isWhiteSpace c)|];
    cbn [String.length] in *; lia.
Qed.

(** X2.  Sanitising never makes a text longer. *)
Theorem sanitizeContent_length x :
  String.length (sanitizeContent x) <= String.length x.
Proof.
  unfold sanitizeContent, trim.
  etransitivity; [apply length_trimEnd|].
  etransitivity; [apply length_trimStart|].
  etransitivity; [apply (length_replace _ _ _ Shrinking_blank)|].
  etransitivity; [apply (length_replace _ _ _ Shrinking_CR)|].
  apply (length_replace _ _ _ Shrinking_CRLF).
Qed.

(** X3.  The texts [sanitizeContent] leaves unchanged are those with no
    carriage return, no three line feeds in a row and no white space at
    either end. *)
Theorem sanitizeContent_fixed_points x :
  sanitizeContent x = x <->
  includes x sCR = false
  /\ includes x (sLF +:+ sLF +:+ sLF) = false
  /\ trim x = x.
Proof.
  rewrite includes_CR_NoCR, includes_LF3_NoTriple. split.
  - intros Hx. rewrite <- Hx. apply sanitizeContent_normal.
  - intros (Hcr & Htr & Htrim). unfold sanitizeContent, replace.
    rewrite (replaceAll_NoMatch matchCRLF) by (by apply NoCR_NoMatch_CRLF).
    rewrite (replaceAll_NoMatch matchCR) by (by apply NoCR_NoMatch_CR).
    rewrite (replaceAll_NoMatch matchBlankLines) by (by apply NoTriple_NoMatch).
    exact Htrim.
Qed.

End SanitizerMore.

(** ** More on the content screener *)

Section ScreenerMore.
Import Js Moderation.

(** The pattern loop, written out for the three patterns. *)
Lemma forEachPattern_three text l st :
  let r0 := test matchUrl (st 0) text in
  let r1 := test matchLongNumber (st 1) text in
  let r2 := test matchCaps (st 2) text in
  forEachPattern SUSPICIOUS_PATTERNS 0 text l st =
  (((l ++ (if r0.1 then ["Contains URLs"] else []))
      ++ (if r1.1 then ["Contains long numbers"] else []))
      ++ (if r2.1 then ["Contains excessive capitalization"] else []),
   setLastIndex (setLastIndex (setLastIndex st 0 r0.2) 1 r1.2) 2 r2.2).
Proof.
  unfold SUSPICIOUS_PATTERNS. cbn [forEachPattern setLastIndex Nat.eqb].
  destruct (test matchUrl (st 0) text) as [[] i0];
    destruct (test matchLongNumber (st 1) text) as [[] i1];
    destruct (test matchCaps (st 2) text) as [[] i2];
    cbn [fst snd nth descriptions]; by rewrite ?app_nil_r.
Qed.

Lemma test_miss_resets m lastIndex s :
  (test m lastIndex s).1 = false -> (test m lastIndex s).2 = 0.
Proof.
  unfold test. destruct (seek None s lastIndex) as [[p r]|]; [|reflexivity].
  by destruct (exec m p r lastIndex).
Qed.

(** The verdict reads the state at the three patterns only. *)
Lemma moderateContent_state st st' title content :
  st 0 = st' 0 -> st 1 = st' 1 -> st 2 = st' 2 ->
  (moderateContent st title content).1 = (moderateContent st' title content).1.
Proof.
  intros H0 H1 H2. unfold moderateContent.
  rewrite !forEachPattern_three. cbn zeta. by rewrite H0, H1, H2.
Qed.

Lemma moderateContent_next_state st title content :
  (moderateContent st title content).2 =
  let text := toLowerCase (title +:+ " " +:+ content) in
  setLastIndex (setLastIndex (setLastIndex st 0 (test matchUrl (st 0) text).2)
                  1 (test matchLongNumber (st 1) text).2)
    2 (test matchCaps (st 2) text).2.
Proof. unfold moderateContent. by rewrite forEachPattern_three. Qed.

Lemma pattern_hit_reported st title content :
  let text := toLowerCase (title +:+ " " +:+ content) in
  ((test matchUrl (st 0) text).1 = true ->
     "Contains URLs" ∈ issues (moderateContent st title content).1)
  /\ ((test matchLongNumber (st 1) text).1 = true ->
        "Contains long numbers" ∈ issues (moderateContent st title content).1).
Proof.
  cbn zeta. rewrite moderateContent_issues, forEachPattern_three. cbn zeta.
  split; intros ->; apply checkMeaningful_keeps, checkLength_keeps;
    cbn [fst]; rewrite !elem_of_app, !list_elem_of_singleton; tauto.
Qed.

(** X6.  A call that reports neither URLs nor long numbers leaves the
    patterns at rest: the call after it, whatever its title and content,
    returns the verdict a first call after loading returns. *)
Theorem moderateContent_rest st title content title' content' :
  let r := moderateContent st title content in
  "Contains URLs" ∉ issues (r.1) ->
  "Contains long numbers" ∉ issues (r.1) ->
  (moderateContent (r.2) title' content').1
  = (moderateContent initialState title' content').1.
Proof.
  intros r Hurl Hnum. unfold r in *.
  destruct (pattern_hit_reported st title content) as [Hu Hn]. cbn zeta in Hu, Hn.
  assert (H0 : (test matchUrl (st 0) (toLowerCase (title +:+ " " +:+ content))).1 = false).
  { destruct (test matchUrl _ _).1; [|reflexivity]. by destruct Hurl; apply Hu. }
  assert (H1 : (test matchLongNumber (st 1) (toLowerCase (title +:+ " " +:+ content))).1 = false).
  { destruct (test matchLongNumber _ _).1; [|reflexivity]. by destruct Hnum; apply Hn. }
  apply moderateContent_state; rewrite moderateContent_next_state; cbn zeta;
    unfold setLastIndex, initialState; cbn [Nat.eqb].
  - by apply test_miss_resets.
  - by apply test_miss_resets.
  - by rewrite test_caps_lower.
Qed.

Lemma moderateContent_rest_witness :
  let r := moderateContent (fun _ => 7) "Hall" "The hall is closed on Monday" in
  ("Contains URLs" ∉ issues (r.1))
  /\ ("Contains long numbers" ∉ issues (r.1))
  /\ (moderateContent (r.2) "Notice" "Please visit http://example.com for details").1
     = (moderateContent initialState "Notice"
          "Please visit http://example.com for details").1.
Proof.
  intros r.
  assert (Hurl : "Contains URLs" ∉ issues (r.1)).
  { vm_compute. intros H. apply elem_of_nil in H. exact H. }
  assert (Hnum : "Contains long numbers" ∉ issues (r.1)).
  { vm_compute. intros H. apply elem_of_nil in H. exact H. }
  split; [exact Hurl | split; [exact Hnum|]].
  exact (moderateContent_rest (fun _ => 7) "Hall" "The hall is closed on Monday"
           "Notice" "Please visit http://example.com for details" Hurl Hnum).
Defined.

(** The pieces of a split and the separators between them fit in the
    text. *)
Lemma splitWs_total cur inRun s :
  let l := splitWs cur inRun s in
  sum_list_with String.length l + length l <= String.length cur + String.length s + 1.
Proof.
  cbn zeta. revert cur inRun. induction s as [|c s IH]; intros cur inRun.
  - cbn [splitWs sum_list_with length String.length]. lia.
  - cbn [splitWs String.length]. destruct (isWhiteSpace c).
    + destruct inRun.
      * specialize (IH EmptyString true). cbn [String.length] in IH. lia.
      * specialize (IH EmptyString true). cbn [String.length] in IH.
        cbn [sum_list_with length]. lia.
    + specialize (IH (cur +:+ String c EmptyString) false).
      rewrite length_app_string in IH. cbn [String.length] in IH. lia.
Qed.

Lemma long_words_total (l : list string) :
  4 * length (List.filter (fun word => 2 <? String.length word) l)
  <= sum_list_with String.length l + length l.
Proof.
  induction l as [|w l IH]; [reflexivity|].
  cbn [List.filter sum_list_with length].
  destruct (2 <? String.length w) eqn:E; cbn [length]; [|lia].
  apply Nat.ltb_lt in E. lia.
Qed.

Lemma meaningfulWords_bound content :
  4 * length (meaningfulWords content) <= String.length content + 1.
Proof.
  unfold meaningfulWords, split_ws.
  pose proof (splitWs_total EmptyString false content) as H1.
  pose proof (long_words_total (splitWs EmptyString false content)) as H2.
  cbn zeta in H1. cbn [String.length] in H1. lia.
Qed.

(** X4.  A content of fewer than 11 code units cannot hold three words
    of three code units: it is reported as lacking meaningful text and
    is not approved.  In particular the issue "Content is too short"
    never comes alone. *)
Theorem short_content_lacks_words st title content :
  String.length content < 11 ->
  let verdict := (moderateContent st title content).1 in
  "Content appears to lack sufficient meaningful text" ∈ issues verdict
  /\ approved verdict = false.
Proof.
  intros Hlen verdict.
  assert (Hin : "Content appears to lack sufficient meaningful text" ∈ issues verdict).
  { unfold verdict. rewrite moderateContent_issues. unfold checkMeaningful.
    pose proof (meaningfulWords_bound content) as Hb.
    destruct (length (meaningfulWords content) <? 3) eqn:E.
    - rewrite elem_of_app, list_elem_of_singleton. by right.
    - apply Nat.ltb_ge in E. lia. }
  split; [exact Hin|].
  unfold verdict in *. rewrite moderateContent_approved.
  destruct (issues _) as [|x l]; [by apply elem_of_nil in Hin | reflexivity].
Qed.

Lemma short_content_lacks_words_witness :
  let verdict := (moderateContent initialState "Gym" "abc de ghi").1 in
  String.length "abc de ghi" < 11
  /\ "Content appears to lack sufficient meaningful text" ∈ issues verdict
  /\ approved verdict = false.
Proof.
  intros verdict.
  assert (Hlen : String.length "abc de ghi" < 11) by (cbn; lia).
  split; [exact Hlen|].
  exact (short_content_lacks_words initialState "Gym" "abc de ghi" Hlen).
Defined.

End ScreenerMore.

Section PatternsFind.
Import Js Moderation.

Lemma exec_here m prev s pos len :
  m prev s = Some len -> exec m prev s pos = Some (pos + len).
Proof. intros H. destruct s; cbn [exec]; by rewrite H. Qed.

(** A position where the pattern matches is not passed over: the search
    ends there or before. *)
Lemma exec_finds m prev pre s pos :
  is_Some (m (lastOr prev pre) s) -> is_Some (exec m prev (pre +:+ s) pos).
Proof.
  revert prev pos. induction pre as [|c pre IH]; intros prev pos.
  - intros [len H]. rewrite app_empty_l, (exec_here _ _ _ _ _ H). by eexists.
  - intros H. rewrite app_cons. cbn [exec].
    destruct (m prev (String c (pre +:+ s))); [by eexists|].
    apply IH. exact H.
Qed.

Lemma test_finds m pre s :
  is_Some (m (lastOr None pre) s) -> (test m 0 (pre +:+ s)).1 = true.
Proof.
  intros H. unfold test.
  assert (Hseek : seek None (pre +:+ s) 0 = Some (None, pre +:+ s)) by (by destruct (pre +:+ s)).
  rewrite Hseek. by destruct (exec_finds m None pre s 0 H) as [e ->].
Qed.

Lemma lastOr_app prev a b : lastOr prev (a +:+ b) = lastOr (lastOr prev a) b.
Proof.
  revert prev. induction a as [|c a IH]; intros prev; [reflexivity|].
  rewrite app_cons. cbn [lastOr]. apply IH.
Qed.

Lemma lastOr_lower prev s :
  lastOr (toLowerChar <$> prev) (toLowerCase s) = toLowerChar <$> lastOr prev s.
Proof.
  revert prev. induction s as [|c s IH]; intros prev; [reflexivity|].
  cbn [toLowerCase lastOr]. apply (IH (Some c)).
Qed.

Lemma isWhiteSpace_lower c : isWhiteSpace (toLowerChar c) = isWhiteSpace c.
Proof. destruct c as [[] [] [] [] [] [] [] []]; reflexivity. Qed.

Lemma isWordChar_lower c : isWordChar (toLowerChar c) = isWordChar c.
Proof. destruct c as [[] [] [] [] [] [] [] []]; reflexivity. Qed.

Lemma isDigit_lower c : isDigit c = true -> toLowerChar c = c.
Proof. destruct c as [[] [] [] [] [] [] [] []]; intros H; try discriminate H; reflexivity. Qed.

Lemma isDigit_word c : isDigit c = true -> isWordChar c = true.
Proof. unfold isWordChar. intros ->. by rewrite !orb_true_r. Qed.

Lemma matchUrl_http p c r :
  isWhiteSpace c = false -> is_Some (matchUrl p ("http://" +:+ String c r)).
Proof.
  intros Hc. unfold matchUrl.
  change (literalCI "http" ("http://" +:+ String c r)) with (Some ("://" +:+ String c r)).
  cbv beta iota.
  change (literalCI "s" ("://" +:+ String c r)) with (@None string).
  cbn [from_option]. unfold urlTail.
  change (literalCI "://" ("://" +:+ String c r)) with (Some (String c r)).
  cbv beta iota zeta. cbn [countWhile]. rewrite Hc. cbn [negb Nat.leb]. by eexists.
Qed.

Lemma matchUrl_https p c r :
  isWhiteSpace c = false -> is_Some (matchUrl p ("https://" +:+ String c r)).
Proof.
  intros Hc. unfold matchUrl.
  change (literalCI "http" ("https://" +:+ String c r)) with (Some ("s://" +:+ String c r)).
  cbv beta iota.
  change (literalCI "s" ("s://" +:+ String c r)) with (Some ("://" +:+ String c r)).
  cbn [from_option]. unfold urlTail.
  change (literalCI "://" ("://" +:+ String c r)) with (Some (String c r)).
  cbv beta iota zeta. cbn [countWhile]. rewrite Hc. cbn [negb Nat.leb]. by eexists.
Qed.

(** X5.  With the URL pattern at rest ([lastIndex] 0, as after loading
    or after a call that reported no URL), a content that holds
    "http://" or "https://", in any casing, followed by a code unit that
    is not white space, is reported as containing URLs and is not
    approved. *)
Theorem url_reported st title content pre u c post :
  st 0 = 0 ->
  content = pre +:+ u +:+ String c post ->
  toLowerCase u = "http://" \/ toLowerCase u = "https://" ->
  isWhiteSpace c = false ->
  let verdict := (moderateContent st title content).1 in
  "Contains URLs" ∈ issues verdict /\ approved verdict = false.
Proof.
  intros Hst -> Hu Hc verdict.
  assert (Hin : "Contains URLs" ∈ issues verdict).
  { unfold verdict. apply pattern_hit_reported. rewrite Hst.
    assert (Htext : toLowerCase (title +:+ " " +:+ pre +:+ u +:+ String c post)
                    = (toLowerCase title +:+ " " +:+ toLowerCase pre)
                      +:+ (toLowerCase u +:+ String (toLowerChar c) (toLowerCase post))).
    { rewrite !toLowerCase_app. change (toLowerCase " ") with " ".
      cbn [toLowerCase]. by rewrite !app_assoc_string. }
    rewrite Htext. apply test_finds. rewrite <- isWhiteSpace_lower in Hc.
    destruct Hu as [-> | ->]; [by apply matchUrl_http | by apply matchUrl_https]. }
  split; [exact Hin|].
  unfold verdict in *. rewrite moderateContent_approved.
  destruct (issues _) as [|x l]; [by apply elem_of_nil in Hin | reflexivity].
Qed.

Lemma url_reported_witness :
  let content := "Register at HTTPS://forms.example.org before Friday noon" in
  let verdict := (moderateContent initialState "Signup" content).1 in
  content = "Register at " +:+ "HTTPS://" +:+ String "f" "orms.example.org before Friday noon"
  /\ "Contains URLs" ∈ issues verdict
  /\ approved verdict = false.
Proof.
  intros content verdict.
  assert (Hc : content = "Register at " +:+ "HTTPS://"
                         +:+ String "f" "orms.example.org before Friday noon")
    by reflexivity.
  split; [exact Hc|].
  apply (url_reported initialState "Signup" content "Register at " "HTTPS://" "f"
           "orms.example.org before Friday noon" eq_refl Hc).
  - right. reflexivity.
  - reflexivity.
Defined.

End PatternsFind.

Section LongNumbers.
Import Js Moderation.

Lemma countWhile_run p a b :
  AllChars (fun c => p c = true) a -> countWhile p b = 0 ->
  countWhile p (a +:+ b) = String.length a.
Proof.
  intros Ha Hb. induction a as [|c a IH]; [exact Hb|].
  destruct Ha as [Hc Ha]. rewrite app_cons. cbn [countWhile String.length].
  by rewrite Hc, IH.
Qed.

Lemma get_last_of_run P a n :
  AllChars P a -> String.length a = S n ->
  exists d, String.get n a = Some d /\ P d.
Proof.
  revert n. induction a as [|c a IH]; intros n; [discriminate|].
  intros [Hc Ha] [= Hlen]. destruct n as [|n].
  - exists c. by split.
  - cbn [String.get]. by apply IH.
Qed.

Lemma longest_whole k s :
  10 <= k ->
  wordBoundary (String.get (k - 1) s) (String.get k s) = true ->
  longest k s = Some k.
Proof.
  intros Hk Hb. apply Nat.leb_le in Hk.
  destruct k as [|k]; [discriminate Hk|].
  cbn [longest]. by rewrite Hk, Hb.
Qed.

(** A run of ten digits or more between two code units that are not
    word characters is a match of the long-number pattern. *)
Lemma matchLongNumber_run prev digits post :
  AllChars (fun c => isDigit c = true) digits ->
  10 <= String.length digits ->
  isWordAt prev = false ->
  isWordAt (String.get 0 post) = false ->
  matchLongNumber prev (digits +:+ post) = Some (String.length digits).
Proof.
  intros Hd Hlen Hprev Hpost.
  assert (Hcount : countWhile isDigit (digits +:+ post) = String.length digits).
  { apply countWhile_run; [exact Hd|].
    destruct post as [|c post]; [reflexivity|].
    cbn [String.get isWordAt from_option] in Hpost. cbn [countWhile].
    destruct (isDigit c) eqn:E; [|reflexivity].
    apply isDigit_word in E. congruence. }
  assert (Hhead : isWordAt (String.get 0 (digits +:+ post)) = true).
  { destruct digits as [|d digits]; [cbn [String.length] in Hlen; lia|]. destruct Hd as [Hd _].
    rewrite app_cons. cbn [String.get isWordAt from_option]. by apply isDigit_word. }
  unfold matchLongNumber, wordBoundary. rewrite Hprev, Hhead, Hcount. cbn [xorb].
  apply longest_whole; [exact Hlen|].
  destruct (String.length digits) as [|n] eqn:Hn; [lia|].
  destruct (get_last_of_run _ digits n Hd Hn) as (d & Hget & Hdig).
  cbn [Nat.sub]. rewrite Nat.sub_0_r.
  rewrite <- (String.append_correct1 digits post) by lia.
  rewrite Hget.
  pose proof (String.append_correct2 digits post 0) as Hend.
  rewrite Hn in Hend. cbn [Nat.add] in Hend.
  rewrite <- Hend. unfold wordBoundary.
  cbn [isWordAt from_option]. rewrite (isDigit_word _ Hdig), Hpost. reflexivity.
Qed.

Lemma toLowerCase_digits digits :
  AllChars (fun c => isDigit c = true) digits -> toLowerCase digits = digits.
Proof.
  induction digits as [|c digits IH]; [reflexivity|]. intros [Hc Hd].
  cbn [toLowerCase]. by rewrite (isDigit_lower _ Hc), IH.
Qed.

Lemma isWordAt_lower o : isWordAt (toLowerChar <$> o) = isWordAt o.
Proof. destruct o as [c|]; [apply isWordChar_lower | reflexivity]. Qed.

Lemma get_0_lower s : String.get 0 (toLowerCase s) = toLowerChar <$> String.get 0 s.
Proof. by destruct s. Qed.

(** X7.  For a title and a content of code units below U+0100.  With
    the long-number pattern at rest, a content that holds ten
    digits or more in a row, with no word character just before them
    (or nothing before them in the content) and none just after, is
    reported as containing long numbers and is not approved. *)
Theorem long_number_reported st title content pre digits post :
  st 1 = 0 ->
  content = pre +:+ digits +:+ post ->
  AllChars (fun c => isDigit c = true) digits ->
  10 <= String.length digits ->
  isWordAt (lastOr None pre) = false ->
  isWordAt (String.get 0 post) = false ->
  let verdict := (moderateContent st title content).1 in
  "Contains long numbers" ∈ issues verdict /\ approved verdict = false.
Proof.
  intros Hst -> Hd Hlen Hpre Hpost verdict.
  assert (Hin : "Contains long numbers" ∈ issues verdict).
  { unfold verdict. apply pattern_hit_reported. rewrite Hst.
    assert (Htext : toLowerCase (title +:+ " " +:+ pre +:+ digits +:+ post)
                    = (toLowerCase title +:+ " " +:+ toLowerCase pre)
                      +:+ (digits +:+ toLowerCase post)).
    { rewrite !toLowerCase_app. change (toLowerCase " ") with " ".
      by rewrite (toLowerCase_digits _ Hd), !app_assoc_string. }
    rewrite Htext. apply test_finds.
    rewrite matchLongNumber_run; [by eexists | exact Hd | exact Hlen | |].
    - rewrite !lastOr_app.
      change (lastOr (lastOr None (toLowerCase title)) " ") with (toLowerChar <$> Some " "%char).
      rewrite lastOr_lower, isWordAt_lower.
      destruct pre as [|c pre]; [reflexivity|]. exact Hpre.
    - by rewrite get_0_lower, isWordAt_lower. }
  split; [exact Hin|].
  unfold verdict in *. rewrite moderateContent_approved.
  destruct (issues _) as [|x l]; [by apply elem_of_nil in Hin | reflexivity].
Qed.

Lemma long_number_reported_witness :
  let content := "Call the office on 0772123456, before noon" in
  let verdict := (moderateContent initialState "Fees" content).1 in
  content = "Call the office on " +:+ "0772123456" +:+ ", before noon"
  /\ "Contains long numbers" ∈ issues verdict
  /\ approved verdict = false.
Proof.
  intros content verdict.
  assert (Hc : content = "Call the office on " +:+ "0772123456" +:+ ", before noon")
    by reflexivity.
  split; [exact Hc|].
  apply (long_number_reported initialState "Fees" content "Call the office on "
           "0772123456" ", before noon" eq_refl Hc).
  - cbn. tauto.
  - cbn. lia.
  - reflexivity.
  - reflexivity.
Defined.

End LongNumbers.

(** ** Search *)

Section SearchFacts.
Import Js Schema Search.

Lemma startsWith_inv s p : startsWith s p = true -> exists b, s = p +:+ b.
Proof.
  revert s. induction p as [|a p IH]; intros s; [by exists s|].
  destruct s as [|b s]; cbn [startsWith]; [discriminate|].
  destruct (Ascii.eqb a b) eqn:E; [|discriminate].
  apply Ascii.eqb_eq in E as <-. intros H. destruct (IH s H) as [r ->].
  by exists r.
Qed.

Lemma includes_inv s sub :
  includes s sub = true -> exists a b, s = a +:+ sub +:+ b.
Proof.
  induction s as [|c s IH]; cbn [includes].
  - destruct (startsWith EmptyString sub) eqn:E; [|discriminate].
    intros _. destruct (startsWith_inv _ _ E) as [b Hb]. by exists EmptyString, b.
  - destruct (startsWith (String c s) sub) eqn:E.
    + intros _. destruct (startsWith_inv _ _ E) as [b Hb]. by exists EmptyString, b.
    + intros H. destruct (IH H) as (a & b & ->). by exists (String c a), b.
Qed.

Lemma includes_empty s : includes s EmptyString = true.
Proof. by destruct s. Qed.

(** A text that contains [x] followed by [y] contains [x]. *)
Lemma includes_shorter s x y : includes s (x +:+ y) = true -> includes s x = true.
Proof.
  intros H. destruct (includes_inv _ _ H) as (a & b & ->).
  rewrite app_assoc_string. apply includes_factor.
Qed.

Lemma matchesSearch_shorter term more notice :
  matchesSearch (term +:+ more) notice = true -> matchesSearch term notice = true.
Proof.
  unfold matchesSearch. rewrite toLowerCase_app, !orb_true_iff.
  intros [H|H]; [left|right]; by eapply includes_shorter.
Qed.

(** X8.  With an empty search box and the category "all", every notice
    is listed. *)
Theorem filteredNotices_no_filter notices :
  filteredNotices "" "all" notices = notices.
Proof.
  unfold filteredNotices. induction notices as [|n notices IH]; [reflexivity|].
  cbn [List.filter]. unfold matchesSearch at 1, matchesCategory at 1.
  change (toLowerCase "") with EmptyString. rewrite !includes_empty.
  cbn [orb andb String.eqb]. by rewrite IH.
Qed.

Lemma toLowerCase_split s x y :
  toLowerCase s = x +:+ y ->
  exists s1 s2, s = s1 +:+ s2 /\ toLowerCase s1 = x /\ toLowerCase s2 = y.
Proof.
  revert s. induction x as [|c x IH]; intros s H.
  - by exists EmptyString, s.
  - destruct s as [|d s]; [discriminate H|].
    rewrite app_cons in H. cbn [toLowerCase] in H. injection H as Hc H.
    destruct (IH s H) as (s1 & s2 & -> & H1 & H2).
    exists (String d s1), s2. cbn [toLowerCase]. by rewrite Hc, H1, H2.
Qed.

(** [text] holds [term] up to the case of the letters. *)
Lemma includes_lower text term :
  includes (toLowerCase text) (toLowerCase term) = true <->
  exists a v b, text = a +:+ v +:+ b /\ toLowerCase v = toLowerCase term.
Proof.
  split.
  - intros H. destruct (includes_inv _ _ H) as (a' & b' & Hab).
    destruct (toLowerCase_split _ _ _ Hab) as (a & r & -> & _ & Hr).
    destruct (toLowerCase_split _ _ _ Hr) as (v & b & -> & Hv & _).
    by exists a, v, b.
  - intros (a & v & b & -> & Hv).
    rewrite !toLowerCase_app, Hv. apply includes_factor.
Qed.

(** X9.  For a search term, titles and contents of code units below
    U+0100.  A notice is listed exactly when it is among the notices, its
    category is the selected one (or "all" is selected), and its title
    or its content holds the search term up to the case of the
    letters. *)
Theorem filteredNotices_listed term selectedCategory notices notice :
  notice ∈ filteredNotices term selectedCategory notices <->
  notice ∈ notices
  /\ (selectedCategory = "all" \/ category_id notice = Some selectedCategory)
  /\ exists a v b,
       (title notice = a +:+ v +:+ b \/ content notice = a +:+ v +:+ b)
       /\ toLowerCase v = toLowerCase term.
Proof.
  unfold filteredNotices.
  rewrite list_elem_of_In, filter_In, <- list_elem_of_In.
  unfold matchesSearch, matchesCategory.
  rewrite andb_true_iff, !orb_true_iff, String.eqb_eq, bool_decide_eq_true.
  rewrite !includes_lower. split.
  - intros (Hin & [(a & v & b & Ht & Hv)|(a & v & b & Hc & Hv)] & Hcat);
      (split; [exact Hin|split; [exact Hcat|]]); exists a, v, b; tauto.
  - intros (Hin & Hcat & a & v & b & [Ht|Hc] & Hv);
      (split; [exact Hin|split; [|exact Hcat]]); [left|right]; by exists a, v, b.
Qed.

(** X10.  For a search term, titles and contents of code units below
    U+0100.  Typing more of the term only narrows the list: a notice listed
    for a term followed by further code units is listed for the term,
    and the narrower list is the filter of the wider one. *)
Theorem filteredNotices_narrows term more selectedCategory notices :
  filteredNotices (term +:+ more) selectedCategory notices
  = filteredNotices (term +:+ more) selectedCategory
      (filteredNotices term selectedCategory notices).
Proof.
  unfold filteredNotices. induction notices as [|n notices IH]; [reflexivity|].
  cbn [List.filter].
  destruct (matchesSearch (term +:+ more) n && matchesCategory selectedCategory n) eqn:E.
  - apply andb_true_iff in E as [Hs Hc].
    rewrite (matchesSearch_shorter _ _ _ Hs), Hc. cbn [andb List.filter].
    rewrite Hs, Hc. cbn [andb]. by rewrite IH.
  - destruct (matchesSearch term n && matchesCategory selectedCategory n);
      [cbn [List.filter]; rewrite E|]; exact IH.
Qed.

End SearchFacts.

(** ** The notice card: what the handlers leave alone, deletion, audit *)

Section NoticeCardFacts.
Import Schema Lifecycle Deletion.

(** What an update that is not refused leaves: the database as it was,
    or the row of the key written anew. *)
Lemma updateNotice_result rq patch nid d d' :
  updateNotice rq patch nid d = inr d' ->
  d' = d
  \/ exists n, notices d !! nid = Some n
       /\ d' = setNotices d (<[nid := update_updated_at (dbNow rq) (patch n)]> (notices d)).
Proof.
  unfold updateNotice. destruct (notices d !! nid) as [n|]; [|intros [= <-]; by left].
  destruct (visible rq n && canUpdateNotice d (auth_uid rq) n); [|intros [= <-]; by left].
  cbv zeta. destruct (visible rq _ && canUpdateNotice d (auth_uid rq) _); [|discriminate].
  intros [= <-]. right. by exists n.
Qed.

(** X11.  Approve and Reject touch nothing but the notice of the card:
    every other notice and every other table is as it was, no notice
    appears, and of the notice itself the key, title, content, category,
    author, priority, dates of expiry, publication and creation, and the
    approver are as they were. *)
Theorem approve_reject_frame rq now notice d :
  let a := (handleApprove rq now notice d).1 in
  let r := (handleReject rq notice d).1 in
  forall d', d' = a \/ d' = r ->
    (forall k, k <> id notice -> notices d' !! k = notices d !! k)
    /\ notice_attachments d' = notice_attachments d
    /\ notice_views d' = notice_views d
    /\ profiles d' = profiles d
    /\ user_roles d' = user_roles d
    /\ (forall n', notices d' !! id notice = Some n' ->
          exists n, notices d !! id notice = Some n
            /\ id n' = id n /\ title n' = title n /\ content n' = content n
            /\ category_id n' = category_id n /\ author_id n' = author_id n
            /\ priority n' = priority n /\ expires_at n' = expires_at n
            /\ publish_at n' = publish_at n /\ created_at n' = created_at n
            /\ approved_by n' = approved_by n).
Proof.
  intros a r d' Hd'.
  assert (Hup : d' = d \/ exists patch n,
              notices d !! id notice = Some n
              /\ d' = setNotices d
                        (<[id notice := update_updated_at (dbNow rq) (patch n)]> (notices d))
              /\ let n' := patch n in
                 id n' = id n /\ title n' = title n /\ content n' = content n
                 /\ category_id n' = category_id n /\ author_id n' = author_id n
                 /\ priority n' = priority n /\ expires_at n' = expires_at n
                 /\ publish_at n' = publish_at n /\ created_at n' = created_at n
                 /\ approved_by n' = approved_by n).
  { destruct Hd' as [-> | ->]; unfold a, r, handleApprove, handleReject;
      (destruct (fault rq); [by left|]);
      (destruct (updateNotice rq _ (id notice) d) as [e|d1] eqn:E; [by left|]);
      (apply updateNotice_result in E as [-> | (n & Hn & ->)]; [by left|]);
      right.
    - by exists (fun n => setApprovedAt (setStatus n Approved) (Some now)), n.
    - by exists (fun n => setStatus n Rejected), n. }
  destruct Hup as [-> | (patch & n & Hn & -> & Hpatch)].
  - split_and!; try done. intros n' H. exists n'. by split_and!.
  - cbn [setNotices notices notice_attachments notice_views profiles user_roles].
    split_and!; try done.
    + intros k Hk. by apply lookup_insert_ne.
    + rewrite lookup_insert_eq. intros n' [= <-]. exists n. split; [exact Hn|].
      exact Hpatch.
Qed.

Lemma approve_reject_frame_witness :
  let d := sampleDatabase Pending in
  let rq := adminRequest d in
  let a := (handleApprove rq "2025-10-02T09:00:00.000Z" (sampleNotice Pending) d).1 in
  let r := (handleReject rq (sampleNotice Pending) d).1 in
  (a = a \/ a = r) /\ user_roles a = user_roles d /\ profiles a = profiles d.
Proof.
  intros d rq a r.
  assert (Ha : a = a \/ a = r) by (left; reflexivity).
  split; [exact Ha|].
  destruct (approve_reject_frame rq "2025-10-02T09:00:00.000Z" (sampleNotice Pending) d
              a Ha) as (_ & _ & _ & Hp & Hr & _).
  by split.
Defined.

(** X12.  A deletion that the user confirms and the database accepts
    removes the notice of the card together with the attachment rows
    and the view rows that reference it, and nothing else; a deletion
    the user does not confirm sends no request. *)
Theorem handleDelete_cascade rq notice d n :
  notices d !! id notice = Some n ->
  fault rq = None ->
  visible rq n = true ->
  canDeleteNotice d (auth_uid rq) = true ->
  let d' := (handleDelete true rq notice d).1 in
  notices d' !! id notice = None
  /\ (forall k, k <> id notice -> notices d' !! k = notices d !! k)
  /\ (forall a, a ∈ notice_attachments d' <->
                a ∈ notice_attachments d /\ att_notice_id a <> id notice)
  /\ (forall v, v ∈ notice_views d' <->
                v ∈ notice_views d /\ notice_id v <> id notice)
  /\ profiles d' = profiles d
  /\ user_roles d' = user_roles d
  /\ handleDelete false rq notice d = (d, None).
Proof.
  intros Hn Hfault Hvis Hcan d'. unfold d', handleDelete, deleteNotice.
  rewrite Hfault, Hn, Hvis, Hcan.
  cbn [negb andb fst notices notice_attachments notice_views profiles user_roles].
  split_and!; try done.
  - apply lookup_delete_eq.
  - intros k Hk. by apply lookup_delete_ne.
  - intros a. rewrite list_elem_of_In, filter_In, <- list_elem_of_In.
    by rewrite negb_true_iff, String.eqb_neq.
  - intros v. rewrite list_elem_of_In, filter_In, <- list_elem_of_In.
    by rewrite negb_true_iff, String.eqb_neq.
Qed.

Lemma handleDelete_cascade_witness :
  let d := sampleDatabase Approved in
  let d' := (handleDelete true (adminRequest d) (sampleNotice Approved) d).1 in
  notices d !! "n-1" = Some (sampleNotice Approved)
  /\ notices d' !! "n-1" = None.
Proof.
  intros d d'.
  assert (Hn : notices d !! "n-1" = Some (sampleNotice Approved))
    by apply lookup_singleton_eq.
  split; [exact Hn|].
  apply (handleDelete_cascade (adminRequest d) (sampleNotice Approved) d
           (sampleNotice Approved) Hn); reflexivity.
Defined.

(** X13.  A request of a caller the policies do not let through changes
    nothing, and the user is still told of a success: the statement
    updates or deletes no row, which is not an error. *)
Theorem refused_request_reports_success rq now notice d n :
  notices d !! id notice = Some n ->
  fault rq = None ->
  canUpdateNotice d (auth_uid rq) n = false ->
  canDeleteNotice d (auth_uid rq) = false ->
  let a := handleApprove rq now notice d in
  let r := handleReject rq notice d in
  let x := handleDelete true rq notice d in
  a.1 = d /\ destructive (toast a.2) = false /\ toast_title (toast a.2) = "Notice approved"
  /\ r.1 = d /\ destructive (toast r.2) = false /\ toast_title (toast r.2) = "Notice rejected"
  /\ x.1 = d /\ (toast_title ∘ toast <$> x.2) = Some "Notice deleted".
Proof.
  intros Hn Hfault Hup Hdel.
  unfold handleApprove, handleReject, handleDelete, updateNotice, deleteNotice.
  rewrite Hfault, Hn, Hup, Hdel, !andb_false_r. by cbn.
Qed.

Lemma refused_request_reports_success_witness :
  let d := sampleDatabase Pending in
  let rq := requestOf "student-7" d in
  let a := handleApprove rq "2025-10-02T09:00:00.000Z" (sampleNotice Pending) d in
  notices d !! "n-1" = Some (sampleNotice Pending)
  /\ a.1 = d
  /\ toast_title (toast a.2) = "Notice approved".
Proof.
  intros d rq a.
  assert (Hn : notices d !! "n-1" = Some (sampleNotice Pending))
    by apply lookup_singleton_eq.
  split; [exact Hn|].
  destruct (refused_request_reports_success rq "2025-10-02T09:00:00.000Z"
              (sampleNotice Pending) d (sampleNotice Pending) Hn)
    as (Ha & _ & Ht & _); try reflexivity.
  by split.
Defined.

End NoticeCardFacts.

(** ** Audit trail *)

Section AuditFacts.
Import Schema Lifecycle Deletion Audit.

Lemma updateNoticeAudit_events rq patch nid d n e :
  notices d !! nid = Some n ->
  e ∈ updateNoticeAudit rq patch nid d ->
  e = audit_notice_changes (UPDATE n (update_updated_at (dbNow rq) (patch n))).
Proof.
  intros Hn. unfold updateNoticeAudit. rewrite Hn.
  destruct (visible rq n && canUpdateNotice d (auth_uid rq) n);
    [|by intros ?%elem_of_nil].
  cbv zeta. destruct (visible rq _ && canUpdateNotice d (auth_uid rq) _).
  - by intros ->%list_elem_of_singleton.
  - by intros ?%elem_of_nil.
Qed.

(** The audit rows of the request of [handleApprove] under the SELECT
    policy: one, for a row the caller may read. *)
Lemma approveAudit_in_force rq reached now nid d n :
  notices d !! nid = Some n ->
  InForce d reached rq ->
  updateNoticeAudit rq (fun n => setApprovedAt (setStatus n Approved) (Some now)) nid d
  = if visible rq n
    then [audit_notice_changes
            (UPDATE n (update_updated_at (dbNow rq)
                         (setApprovedAt (setStatus n Approved) (Some now))))]
    else [].
Proof.
  intros Hn Hforce. unfold updateNoticeAudit. rewrite Hn. cbv zeta. rewrite !Hforce.
  destruct (canViewNotice d reached (auth_uid rq) n) eqn:Hvis; [|reflexivity].
  destruct (canViewNotice_inv _ _ _ _ Hvis) as [Hst Hcan]. rewrite Hcan.
  cbn [andb].
  assert (Hnew : canViewNotice d reached (auth_uid rq)
                   (update_updated_at (dbNow rq)
                      (setApprovedAt (setStatus n Approved) (Some now))) = true).
  { revert Hvis. unfold canViewNotice. destruct (auth_uid rq); [|done].
    cbn [status publish_at author_id update_updated_at setApprovedAt setStatus].
    rewrite Hst. by rewrite !bool_decide_eq_true_2 by done. }
  rewrite Hnew. cbn [andb].
  change (canUpdateNotice d (auth_uid rq) (update_updated_at _ _))
    with (canUpdateNotice d (auth_uid rq) n).
  by rewrite Hcan.
Qed.

(** The request of [handleReject] leaves no audit row: the database
    reaches no row, or refuses the row it would write. *)
Lemma rejectAudit_in_force rq reached nid d :
  InForce d reached rq ->
  updateNoticeAudit rq (fun n => setStatus n Rejected) nid d = [].
Proof.
  intros Hforce. unfold updateNoticeAudit.
  destruct (notices d !! nid) as [n|]; [|reflexivity].
  destruct (visible rq n && canUpdateNotice d (auth_uid rq) n); [|reflexivity].
  cbv zeta. rewrite Hforce. by rewrite canViewNotice_pending.
Qed.

(** X14.  The audit rows of an approval, a rejection or a deletion never
    name the caller: the actor recorded is the author of the notice, or
    the approver column of the notice, which the handlers never write.
    For a notice with no approver it is the author. *)
Theorem audit_actor_not_caller rq now notice d n e :
  notices d !! id notice = Some n ->
  e ∈ handleApproveAudit rq now notice d
  \/ e ∈ handleRejectAudit rq notice d
  \/ e ∈ handleDeleteAudit true rq notice d ->
  (user_id e = Some (author_id n) \/ user_id e = approved_by n)
  /\ (approved_by n = None -> user_id e = Some (author_id n)).
Proof.
  intros Hn He.
  assert (H : user_id e = Some (default (author_id n) (approved_by n))
              \/ user_id e = Some (author_id n)).
  { unfold handleApproveAudit, handleRejectAudit, handleDeleteAudit, deleteNoticeAudit in He.
    cbn [negb] in He. rewrite Hn in He.
    destruct (fault rq);
      [by destruct He as [?%elem_of_nil | [?%elem_of_nil | ?%elem_of_nil]]|].
    destruct He as [H | [H | H]].
    - apply (updateNoticeAudit_events _ _ _ _ n) in H; [|done]. subst e.
      cbn [audit_notice_changes]. case_bool_decide; [by left | by right].
    - apply (updateNoticeAudit_events _ _ _ _ n) in H; [|done]. subst e.
      cbn [audit_notice_changes]. case_bool_decide; [by left | by right].
    - destruct (visible rq n && canDeleteNotice d (auth_uid rq)).
      + apply list_elem_of_singleton in H as ->. by right.
      + by apply elem_of_nil in H. }
  destruct (approved_by n) as [who|]; cbn [default] in H.
  - split; [|discriminate]. destruct H as [-> | ->]; [by right | by left].
  - split; [left|intros _]; by destruct H.
Qed.

Lemma audit_actor_not_caller_witness :
  let d := sampleDatabase Approved in
  let log := handleApproveAudit (adminRequest d) "2025-10-02T09:00:00.000Z"
               (sampleNotice Approved) d in
  notices d !! "n-1" = Some (sampleNotice Approved)
  /\ auth_uid (adminRequest d) = Some "admin-1"
  /\ exists e, log = [e] /\ action e = "update" /\ user_id e = Some "staff-1".
Proof.
  intros d log.
  pose proof (sampleDatabase_row Approved) as Hn. fold d in Hn.
  split; [exact Hn|]. split; [reflexivity|].
  assert (Hlog : log = [audit_notice_changes
                          (UPDATE (sampleNotice Approved)
                             (update_updated_at "2025-10-02T09:00:00.100Z"
                                (setApprovedAt (setStatus (sampleNotice Approved) Approved)
                                   (Some "2025-10-02T09:00:00.000Z"))))]).
  { unfold log, handleApproveAudit. cbn [adminRequest requestOf fault].
    change (id (sampleNotice Approved)) with "n-1".
    by rewrite (approveAudit_in_force _ (fun _ => true) _ _ _ _ Hn
                  (requestOf_in_force "admin-1" d)). }
  eexists. split; [exact Hlog|]. split; [reflexivity|].
  apply (audit_actor_not_caller (adminRequest d) "2025-10-02T09:00:00.000Z"
           (sampleNotice Approved) d (sampleNotice Approved) _ Hn); [|reflexivity].
  left. fold log. rewrite Hlog. by apply list_elem_of_singleton.
Defined.

(** X15.  Under the SELECT policy of the repository the card never
    leaves an audit row with the action "approve" or "reject".  A
    rejection leaves no audit row at all.  An approval leaves one
    exactly when the caller may read the notice, which is then approved
    already: a plain "update" in the name of the author, holding the
    whole row before and after, with no metadata. *)
Theorem card_audit_rows_are_updates rq reached now notice d n :
  notices d !! id notice = Some n ->
  InForce d reached rq ->
  handleRejectAudit rq notice d = []
  /\ (fault rq = None -> visible rq n = true ->
        status n = Approved
        /\ exists e NEW,
             handleApproveAudit rq now notice d = [e]
             /\ notices (handleApprove rq now notice d).1 !! id notice = Some NEW
             /\ action e = "update"
             /\ entity_type e = "notice" /\ entity_id e = Some (id n)
             /\ user_id e = Some (author_id n)
             /\ old_values e = Some (RowValue n)
             /\ new_values e = Some (RowValue NEW)
             /\ metadata e = None)
  /\ (visible rq n = false -> handleApproveAudit rq now notice d = []).
Proof.
  intros Hn Hforce. split; [|split].
  - unfold handleRejectAudit. destruct (fault rq); [reflexivity|].
    by apply (rejectAudit_in_force rq reached).
  - intros Hfault Hvis. pose proof Hvis as Hview. rewrite Hforce in Hview.
    destruct (canViewNotice_inv _ _ _ _ Hview) as [Hst _]. split; [exact Hst|].
    unfold handleApproveAudit, handleApprove. rewrite Hfault.
    rewrite (approveAudit_in_force rq reached now (id notice) d n Hn Hforce).
    rewrite (approve_in_force rq reached now (id notice) d n Hn Hforce).
    rewrite Hvis. cbn [fst setNotices notices]. rewrite lookup_insert_eq.
    eexists _, _. split; [reflexivity|]. split; [reflexivity|].
    cbn [audit_notice_changes status update_updated_at setApprovedAt setStatus].
    rewrite Hst. rewrite bool_decide_eq_false_2 by (intros H; by apply H).
    by split_and!.
  - intros Hvis. unfold handleApproveAudit. destruct (fault rq); [reflexivity|].
    rewrite (approveAudit_in_force rq reached now (id notice) d n Hn Hforce).
    by rewrite Hvis.
Qed.

Lemma card_audit_rows_are_updates_witness :
  let d := sampleDatabase Approved in
  let rq := adminRequest d in
  notices d !! "n-1" = Some (sampleNotice Approved)
  /\ InForce d (fun _ => true) rq
  /\ handleRejectAudit rq (sampleNotice Approved) d = []
  /\ exists e, handleApproveAudit rq "2025-10-02T09:00:00.000Z"
                 (sampleNotice Approved) d = [e]
               /\ action e = "update".
Proof.
  intros d rq.
  pose proof (sampleDatabase_row Approved) as Hn. fold d in Hn.
  pose proof (requestOf_in_force "admin-1" d) as Hforce.
  destruct (card_audit_rows_are_updates rq (fun _ => true) "2025-10-02T09:00:00.000Z"
              (sampleNotice Approved) d (sampleNotice Approved) Hn Hforce)
    as (Hr & Ha & _).
  destruct (Ha eq_refl eq_refl) as (_ & e & NEW & He & _ & Hact & _).
  split_and!; [exact Hn | exact Hforce | exact Hr |].
  exists e. by split.
Defined.

End AuditFacts.

(** ** Roles on the client *)

Section RoleDialogFacts.
Import Schema RoleDialog.

Lemma has_role_elem d u r : has_role d u r = true <-> (u, r) ∈ user_roles d.
Proof.
  unfold has_role. rewrite existsb_exists. split.
  - intros ([u' r'] & Hin & H). apply andb_true_iff in H as [H1 H2].
    apply bool_decide_eq_true in H1, H2. cbn in H1, H2. subst.
    by apply list_elem_of_In.
  - intros Hin. exists (u, r). split; [by apply list_elem_of_In|].
    cbn. by rewrite !bool_decide_eq_true_2.
Qed.

Lemma has_role_false d u r : has_role d u r = false <-> (u, r) ∉ user_roles d.
Proof. rewrite <- has_role_elem. by destruct (has_role d u r). Qed.

Lemma rowsOf_without u (rows : list (string * app_role)) :
  rowsOf u (List.filter (fun row => negb (String.eqb row.1 u)) rows) = [].
Proof.
  unfold rowsOf. induction rows as [|row rows IH]; [reflexivity|].
  cbn [List.filter]. destruct (String.eqb row.1 u) eqn:E; cbn [negb List.filter];
    [exact IH|]. by rewrite E.
Qed.

Lemma rowsOf_app u a b : rowsOf u (a ++ b) = rowsOf u a ++ rowsOf u b.
Proof. apply List.filter_app. Qed.

Lemma elem_of_without u (rows : list (string * app_role)) v r :
  (v, r) ∈ List.filter (fun row => negb (String.eqb row.1 u)) rows <->
  v <> u /\ (v, r) ∈ rows.
Proof.
  rewrite list_elem_of_In, filter_In, <- list_elem_of_In.
  cbn [fst]. rewrite negb_true_iff, String.eqb_neq. tauto.
Qed.

Lemma label_not_empty label r :
  RoleStore.to_app_role label = inr r -> String.eqb label "" = false.
Proof.
  intros H. destruct (String.eqb label "") eqn:E; [|reflexivity].
  apply String.eqb_eq in E as ->. discriminate H.
Qed.

(** X16.  When an administrator changes the role of another user and
    both requests are accepted, that user holds the selected role and no
    other, the role rows of everyone else are as they were, and the
    client reads the new role. *)
Theorem handleUpdateRole_single_role sv selectedUser selectedRole d caller r :
  auth_uid sv = Some caller ->
  has_role d caller admin = true ->
  caller <> selectedUser ->
  deleteFault sv = None ->
  insertFault sv = None ->
  is_Some (profiles d !! selectedUser) ->
  selectedUser <> "" ->
  RoleStore.to_app_role selectedRole = inr r ->
  let out := handleUpdateRole sv selectedUser selectedRole d in
  toast_title out.2 = "Role updated"
  /\ (forall u r', (u, r') ∈ user_roles out.1 <->
        (u = selectedUser /\ r' = r) \/ (u <> selectedUser /\ (u, r') ∈ user_roles d))
  /\ fetchUserRole false selectedUser out.1 = roleName r.
Proof.
  intros Hcaller Hadmin Hne Hdel Hins Hprof Huser Hrole out.
  unfold out, handleUpdateRole.
  apply String.eqb_neq in Huser. rewrite Huser, (label_not_empty _ _ Hrole). cbn [orb].
  unfold deleteRoles. rewrite Hdel, Hcaller. cbn [canManageRoles]. rewrite Hadmin.
  unfold insertRole. rewrite Hins, Hrole, Hcaller. cbn [canManageRoles].
  set (rest := List.filter (fun row => negb (String.eqb row.1 selectedUser)) (user_roles d)).
  assert (Hadmin' : has_role (RoleStore.setUserRoles d rest) caller admin = true).
  { apply has_role_elem. cbn [RoleStore.setUserRoles user_roles]. apply elem_of_without.
    split; [exact Hne | by apply has_role_elem]. }
  assert (Hfree : has_role (RoleStore.setUserRoles d rest) selectedUser r = false).
  { apply has_role_false. cbn [RoleStore.setUserRoles user_roles].
    intros H%elem_of_without. by destruct H. }
  rewrite Hadmin', Hfree. cbn [RoleStore.setUserRoles profiles].
  rewrite (bool_decide_eq_true_2 _ Hprof). cbn [andb negb fst snd user_roles].
  split_and!; [reflexivity| |].
  - intros u r'. cbn [RoleStore.setUserRoles user_roles].
    rewrite elem_of_app, list_elem_of_singleton. unfold rest.
    rewrite elem_of_without. split.
    + intros [[H1 H2] | [= -> ->]]; [by right | by left].
    + intros [[-> ->] | [H1 H2]]; [by right | by left].
  - unfold fetchUserRole. cbn [RoleStore.setUserRoles user_roles].
    fold (rowsOf selectedUser (rest ++ [(selectedUser, r)])).
    rewrite rowsOf_app. unfold rest. rewrite rowsOf_without.
    unfold rowsOf. cbn [List.filter fst app]. by rewrite String.eqb_refl.
Qed.

(** X17.  An administrator who changes their own role ends with no role
    at all: the delete request removes their admin row, so the policy
    refuses the insert that follows.  The dialog shows the error, and
    the client reads the role student from then on. *)
Theorem handleUpdateRole_own_role sv selectedUser selectedRole d r :
  auth_uid sv = Some selectedUser ->
  has_role d selectedUser admin = true ->
  deleteFault sv = None ->
  insertFault sv = None ->
  selectedUser <> "" ->
  RoleStore.to_app_role selectedRole = inr r ->
  let out := handleUpdateRole sv selectedUser selectedRole d in
  out.2 = errorToast (refusal sv)
  /\ (forall r', has_role out.1 selectedUser r' = false)
  /\ (forall u r', u <> selectedUser ->
        ((u, r') ∈ user_roles out.1 <-> (u, r') ∈ user_roles d))
  /\ fetchUserRole false selectedUser out.1 = "student"
  /\ Dashboard false (Some selectedUser)
       (Some (fetchUserRole false selectedUser out.1)) = StudentDashboard.
Proof.
  intros Hcaller Hadmin Hdel Hins Huser Hrole out.
  set (rest := List.filter (fun row => negb (String.eqb row.1 selectedUser)) (user_roles d)).
  assert (Hnone : forall r', has_role (RoleStore.setUserRoles d rest) selectedUser r' = false).
  { intros r'. apply has_role_false. cbn [RoleStore.setUserRoles user_roles].
    intros H%elem_of_without. by destruct H. }
  assert (Hout : out = (RoleStore.setUserRoles d rest, errorToast (refusal sv))).
  { unfold out, handleUpdateRole.
    apply String.eqb_neq in Huser. rewrite Huser, (label_not_empty _ _ Hrole). cbn [orb].
    unfold deleteRoles. rewrite Hdel, Hcaller. cbn [canManageRoles]. rewrite Hadmin.
    unfold insertRole. rewrite Hins, Hrole, Hcaller. cbn [canManageRoles].
    fold rest. by rewrite (Hnone admin). }
  assert (Hfetch : fetchUserRole false selectedUser (RoleStore.setUserRoles d rest) = "student").
  { unfold fetchUserRole. cbn [RoleStore.setUserRoles user_roles].
    fold (rowsOf selectedUser rest). unfold rest. by rewrite rowsOf_without. }
  rewrite Hout. cbn [fst snd]. split_and!; [reflexivity | exact Hnone | | exact Hfetch |].
  - intros u r' Hu. cbn [RoleStore.setUserRoles user_roles]. unfold rest.
    rewrite elem_of_without. tauto.
  - by rewrite Hfetch.
Qed.

(** X18.  When the delete request fails and the insert is accepted, the
    user keeps every role they had and gains the selected one; the
    dialog reports a success.  A user with two role rows is a student
    for the client, whatever the rows are. *)
Theorem handleUpdateRole_delete_failed sv selectedUser selectedRole d caller r r0 e :
  auth_uid sv = Some caller ->
  has_role d caller admin = true ->
  deleteFault sv = Some e ->
  insertFault sv = None ->
  is_Some (profiles d !! selectedUser) ->
  selectedUser <> "" ->
  RoleStore.to_app_role selectedRole = inr r ->
  has_role d selectedUser r0 = true ->
  has_role d selectedUser r = false ->
  let out := handleUpdateRole sv selectedUser selectedRole d in
  toast_title out.2 = "Role updated"
  /\ user_roles out.1 = user_roles d ++ [(selectedUser, r)]
  /\ has_role out.1 selectedUser r0 = true
  /\ has_role out.1 selectedUser r = true
  /\ fetchUserRole false selectedUser out.1 = "student".
Proof.
  intros Hcaller Hadmin Hdel Hins Hprof Huser Hrole Hold Hnew out.
  assert (Hout : out.1 = RoleStore.setUserRoles d (user_roles d ++ [(selectedUser, r)])
                 /\ toast_title out.2 = "Role updated").
  { unfold out, handleUpdateRole.
    apply String.eqb_neq in Huser. rewrite Huser, (label_not_empty _ _ Hrole). cbn [orb].
    unfold deleteRoles. rewrite Hdel.
    unfold insertRole. rewrite Hins, Hrole, Hcaller. cbn [canManageRoles].
    rewrite Hadmin, Hnew, (bool_decide_eq_true_2 _ Hprof). by cbn. }
  destruct Hout as [Hdb Htoast]. rewrite Hdb. cbn [RoleStore.setUserRoles user_roles].
  split_and!; [exact Htoast | reflexivity | | |].
  - apply has_role_elem. cbn [RoleStore.setUserRoles user_roles]. apply elem_of_app. left.
    by apply has_role_elem.
  - apply has_role_elem. cbn [RoleStore.setUserRoles user_roles]. apply elem_of_app. right.
    by apply list_elem_of_singleton.
  - unfold fetchUserRole. cbn [RoleStore.setUserRoles user_roles].
    fold (rowsOf selectedUser (user_roles d ++ [(selectedUser, r)])).
    rewrite rowsOf_app.
    assert (Hrow : (selectedUser, r0) ∈ rowsOf selectedUser (user_roles d)).
    { unfold rowsOf. rewrite list_elem_of_In, filter_In, <- list_elem_of_In.
      split; [by apply has_role_elem | apply String.eqb_refl]. }
    destruct (rowsOf selectedUser (user_roles d)) as [|row rows] eqn:E;
      [by apply elem_of_nil in Hrow|].
    unfold rowsOf at 1. cbn [List.filter fst]. rewrite String.eqb_refl.
    by destruct rows.
Qed.

Lemma handleUpdateRole_single_role_witness :
  let out := handleUpdateRole (adminRoleServices false) "staff-1" "student"
               (sampleDatabase Pending) in
  has_role (sampleDatabase Pending) "admin-1" admin = true
  /\ toast_title out.2 = "Role updated"
  /\ fetchUserRole false "staff-1" out.1 = "student".
Proof.
  intros out. split; [reflexivity|].
  destruct (handleUpdateRole_single_role (adminRoleServices false) "staff-1" "student"
              (sampleDatabase Pending) "admin-1" student)
    as (Ht & _ & Hf); try reflexivity; try discriminate.
  - exists {| full_name := "Staff"; email := "staff@example.org" |}.
    apply lookup_insert_eq.
  - by split.
Defined.

Lemma handleUpdateRole_own_role_witness :
  let out := handleUpdateRole (adminRoleServices false) "admin-1" "staff"
               (sampleDatabase Pending) in
  has_role (sampleDatabase Pending) "admin-1" admin = true
  /\ destructive out.2 = true
  /\ has_role out.1 "admin-1" admin = false
  /\ has_role out.1 "admin-1" staff = false.
Proof.
  intros out.
  destruct (handleUpdateRole_own_role (adminRoleServices false) "admin-1" "staff"
              (sampleDatabase Pending) staff)
    as (Ht & Hnone & _); try reflexivity; try discriminate.
  fold out in Ht, Hnone. split_and!; [reflexivity | by rewrite Ht | apply Hnone..].
Defined.

Lemma handleUpdateRole_delete_failed_witness :
  let out := handleUpdateRole (adminRoleServices true) "staff-1" "admin"
               (sampleDatabase Pending) in
  has_role (sampleDatabase Pending) "staff-1" staff = true
  /\ has_role out.1 "staff-1" admin = true
  /\ fetchUserRole false "staff-1" out.1 = "student".
Proof.
  intros out. split; [reflexivity|].
  destruct (handleUpdateRole_delete_failed (adminRoleServices true) "staff-1" "admin"
              (sampleDatabase Pending) "admin-1" admin staff
              {| message := "request failed"; instanceofError := true |})
    as (_ & _ & _ & Ha & Hf); try reflexivity; try discriminate.
  - exists {| full_name := "Staff"; email := "staff@example.org" |}.
    apply lookup_insert_eq.
  - by split.
Defined.

End RoleDialogFacts.

(** ** Attachments of the dialog *)

Section DialogFacts.
Import Upload Dialog.

Lemma uploadFile_cases env file st :
  if uploaded (env, file)
  then exists st', uploadFile env file st
                   = (inr {| url := getPublicUrl env BUCKET_NAME (filePath env file);
                             uploaded_type := getFileType file;
                             uploaded_size := size file |}, st')
  else exists st', uploadFile env file st = (inl (failureMessage (env, file)), st').
Proof.
  unfold uploaded, uploadFile, failureMessage. cbn [fst snd].
  change (10 * 1024 * 1024)%N with 10485760%N.
  destruct (N.leb_spec (size file) 10485760) as [Hle|Hgt].
  - apply N.ltb_ge in Hle. rewrite Hle. cbn [andb]. unfold upload.
    destruct (uploadError env) as [e|]; by eexists.
  - apply N.ltb_lt in Hgt. rewrite Hgt. by eexists.
Qed.

(** X19.  After a batch of files has been handled, the attachments are
    those the dialog had, followed by one per file whose upload was let
    through, in the order of the batch, with the name, type and size of
    the file and the public URL of its path; the toasts are those shown
    before, followed by one per other file, in the order of the batch:
    the destructive toast "Upload failed", which names the file and
    gives the message of the error.  No attachment is added for a file
    above 10485760 bytes. *)
Theorem handleFileUpload_attachments files st :
  let st' := handleFileUpload files st in
  attachments st' = attachments st ++ (attachmentOf <$> List.filter uploaded files)
  /\ toasts st'
     = toasts st ++ (failureToast <$> List.filter (fun p => negb (uploaded p)) files)
  /\ Forall (fun a => (CreateNotice.file_size a <= 10485760)%N)
       (attachmentOf <$> List.filter uploaded files).
Proof.
  cbn zeta. split; [|split].
  - revert st. induction files as [|[env file] files IH]; intros st.
    + by rewrite app_nil_r.
    + cbn [handleFileUpload List.filter].
      pose proof (uploadFile_cases env file (storage st)) as H.
      destruct (uploaded (env, file)).
      * destruct H as [st' ->]. rewrite IH. cbn [attachments fmap list_fmap].
        by rewrite <- app_assoc.
      * destruct H as (st' & ->). by rewrite IH.
  - revert st. induction files as [|[env file] files IH]; intros st.
    + by rewrite app_nil_r.
    + cbn [handleFileUpload List.filter].
      pose proof (uploadFile_cases env file (storage st)) as H.
      destruct (uploaded (env, file)); cbn [negb].
      * destruct H as [st' ->]. by rewrite IH.
      * destruct H as (st' & ->). rewrite IH. cbn [toasts fmap list_fmap].
        by rewrite <- app_assoc.
  - apply Forall_fmap, Forall_forall. intros p Hp.
    apply list_elem_of_In, filter_In in Hp as [_ Hp]. unfold uploaded in Hp.
    apply andb_true_iff in Hp as [Hp _]. apply N.leb_le in Hp. exact Hp.
Qed.

Lemma filterIndex_delete {A : Type} (index from : nat) (prev : list A) :
  filterIndex (from + index) from prev = delete index prev.
Proof.
  revert index from. induction prev as [|x prev IH]; intros index from; [reflexivity|].
  cbn [filterIndex]. destruct index as [|index].
  - rewrite Nat.add_0_r, Nat.eqb_refl. cbn [delete list_delete].
    clear IH. revert from.
    assert (H : forall k from, k < from -> filterIndex k from prev = prev).
    { clear. induction prev as [|y prev IH]; intros k from Hk; [reflexivity|].
      cbn [filterIndex]. destruct (from =? k) eqn:E; [apply Nat.eqb_eq in E; lia|].
      f_equal. apply IH. lia. }
    intros from. apply H. lia.
  - destruct (from =? from + S index) eqn:E; [apply Nat.eqb_eq in E; lia|].
    cbn [delete list_delete]. f_equal.
    replace (from + S index) with (S from + index) by lia. apply IH.
Qed.

(** X20.  Removing an attachment takes out the one at the index and
    keeps the others in order; an index beyond the list changes
    nothing. *)
Theorem removeAttachment_index index prev :
  removeAttachment index prev = take index prev ++ drop (S index) prev
  /\ (length prev <= index -> removeAttachment index prev = prev)
  /\ (index < length prev -> S (length (removeAttachment index prev)) = length prev).
Proof.
  unfold removeAttachment. rewrite (filterIndex_delete index 0).
  rewrite delete_take_drop. split_and!; [reflexivity| |].
  - intros H. rewrite take_ge, drop_ge by lia. by rewrite app_nil_r.
  - intros H. rewrite length_app, length_take, length_drop. lia.
Qed.

Lemma removeAttachment_index_witness :
  length [sampleAttachment] <= 5
  /\ removeAttachment 5 [sampleAttachment] = [sampleAttachment].
Proof.
  assert (H : length [sampleAttachment] <= 5) by (cbn [length]; lia).
  split; [exact H|].
  destruct (removeAttachment_index 5 [sampleAttachment]) as (_ & Hbeyond & _).
  exact (Hbeyond H).
Defined.

Lemma lastPiece_spec cur s :
  AllChars (fun c => Ascii.eqb c "."%char = false) cur ->
  let ext := lastPiece cur s in
  AllChars (fun c => Ascii.eqb c "."%char = false) ext
  /\ (cur +:+ s = ext \/ exists stem, cur +:+ s = stem +:+ "." +:+ ext).
Proof.
  cbn zeta. revert cur. induction s as [|c s IH]; intros cur Hcur.
  - cbn [lastPiece]. rewrite app_empty_r. by split; [|left].
  - cbn [lastPiece]. destruct (Ascii.eqb c ".") eqn:E.
    + apply Ascii.eqb_eq in E as ->.
      destruct (IH EmptyString I) as [Hext Hs]. split; [exact Hext|]. right.
      rewrite app_empty_l in Hs.
      remember (lastPiece EmptyString s) as ext eqn:Heq. clear Heq IH.
      destruct Hs as [-> | [stem ->]].
      * by exists cur.
      * exists (cur +:+ "." +:+ stem). by rewrite !app_assoc_string.
    + destruct (IH (cur +:+ String c EmptyString)) as [Hext Hs].
      { apply AllChars_app; [exact Hcur | by split]. }
      split; [exact Hext|]. by rewrite app_assoc_string in Hs.
Qed.

(** X21.  The extension in the path of an upload holds no dot: it is
    what follows the last dot of the file name, and the whole name when
    the name has no dot. *)
Theorem filePath_extension env file :
  exists ext,
    filePath env file
    = "notice_attachments/" +:+ dateNow env +:+ "-" +:+ randomString env +:+ "." +:+ ext
    /\ Js.includes ext "." = false
    /\ (name file = ext \/ exists stem, name file = stem +:+ "." +:+ ext).
Proof.
  exists (lastPiece EmptyString (name file)). split; [reflexivity|].
  destruct (lastPiece_spec EmptyString (name file) I) as [Hext Hs]. split; [|exact Hs].
  clear Hs. induction (lastPiece EmptyString (name file)) as [|c ext IH]; [reflexivity|].
  destruct Hext as [Hc Hext]. cbn [Js.includes Js.startsWith].
  rewrite Ascii.eqb_sym, Hc. by apply IH.
Qed.

End DialogFacts.

(** ** More on the view tracker *)

Section ViewTrackerMore.
Import Schema ViewTracker.




End ViewTrackerMore.

(** ** More on the role store *)

Section RoleStoreMore.
Import Schema RoleStore.

Lemma created_no_role n d u r :
  created n d -> profiles d !! u = None -> has_role d u r = false.
Proof.
  intros Hd Hu. apply has_role_false. intros Hin.
  destruct (created_references n d Hd u r Hin) as [p Hp]. congruence.
Qed.

(** X23.  The creation of the first identity succeeds exactly when it
    has an e-mail address, whatever role label comes with it.  A later
    creation succeeds exactly when the identity has an e-mail address,
    its key is new, and the role label given, if any, is one of
    "admin", "staff" and "student". *)
Theorem handle_new_user_succeeds n d v NEW :
  created n d ->
  (exists d', handle_new_user v NEW d = inr d') <->
  is_Some (email NEW)
  /\ profiles d !! id NEW = None
  /\ (n <> 0 -> forall label, providedRole v NEW = Some label ->
                  exists r, to_app_role label = inr r).
Proof.
  intros Hd. pose proof (created_size n d Hd) as Hsize. split.
  - intros [d' Hrun].
    destruct (handle_new_user_inv _ _ _ _ Hrun) as (e & r & He & Hfresh & _ & _ & Hr).
    split; [by rewrite He; eexists|]. split; [exact Hfresh|].
    intros Hn label Hl. rewrite Hsize in Hr.
    destruct n as [|n]; [done|]. cbn [Nat.eqb] in Hr.
    rewrite requestedRole_provided, Hl in Hr. by exists r.
  - intros ([e He] & Hfresh & Hlabel).
    unfold handle_new_user, insertProfile. rewrite He, Hfresh. cbn [profiles].
    rewrite (map_size_insert_None _ _ _ Hfresh), Hsize.
    change (S n =? 1) with (n =? 0).
    assert (Hnone : forall r, insertUserRole (id NEW) r
              {| notices := notices d; notice_attachments := notice_attachments d;
                 notice_views := notice_views d;
                 profiles := <[id NEW := {| Schema.full_name := displayName v NEW;
                                            Schema.email := e |}]> (profiles d);
                 user_roles := user_roles d |}
              = inr {| notices := notices d; notice_attachments := notice_attachments d;
                       notice_views := notice_views d;
                       profiles := <[id NEW := {| Schema.full_name := displayName v NEW;
                                                  Schema.email := e |}]> (profiles d);
                       user_roles := user_roles d ++ [(id NEW, r)] |}).
    { intros r. unfold insertUserRole.
      assert (H : has_role d (id NEW) r = false) by (by eapply created_no_role).
      unfold has_role in *. cbn [user_roles]. by rewrite H. }
    destruct n as [|n]; cbn [Nat.eqb].
    + rewrite Hnone. by eexists.
    + rewrite requestedRole_provided.
      destruct (providedRole v NEW) as [label|] eqn:Hl.
      * destruct (Hlabel ltac:(done) label eq_refl) as [r ->]. rewrite Hnone. by eexists.
      * rewrite Hnone. by eexists.
Qed.

Lemma handle_new_user_succeeds_witness :
  created 0 emptyDatabase
  /\ (exists d', handle_new_user OAuth firstUser emptyDatabase = inr d').
Proof.
  split; [exact created_none|].
  apply (handle_new_user_succeeds 0 emptyDatabase OAuth firstUser created_none).
  split; [by eexists|]. split; [apply lookup_empty | done].
Defined.

Lemma firstUser_created :
  exists d1, handle_new_user OAuth firstUser emptyDatabase = inr d1.
Proof.
  unfold handle_new_user, insertProfile. cbn [email firstUser emptyDatabase profiles].
  rewrite lookup_empty. cbn [profiles].
  rewrite map_size_insert_None by apply lookup_empty.
  rewrite map_size_empty. cbn [Nat.eqb]. by eexists.
Qed.

(** X24.  After a creation the new identity holds exactly one role, the
    one the trigger chose, the profiles and the roles of the others are
    as they were, and the client reads that role; the first identity is
    shown the administrator's dashboard. *)
Theorem handle_new_user_one_role n d v NEW d' :
  created n d ->
  handle_new_user v NEW d = inr d' ->
  exists r,
    rowsOf (id NEW) (user_roles d') = [(id NEW, r)]
    /\ (forall u, u <> id NEW ->
          rowsOf u (user_roles d') = rowsOf u (user_roles d)
          /\ profiles d' !! u = profiles d !! u)
    /\ RoleDialog.fetchUserRole false (id NEW) d' = RoleDialog.roleName r
    /\ (n = 0 ->
          RoleDialog.Dashboard false (Some (id NEW))
            (Some (RoleDialog.fetchUserRole false (id NEW) d'))
          = RoleDialog.AdminDashboard).
Proof.
  intros Hd Hrun. pose proof (created_size n d Hd) as Hsize.
  destruct (handle_new_user_inv _ _ _ _ Hrun) as (e & r & _ & Hfresh & Hprof & Hroles & Hr).
  assert (Hold : rowsOf (id NEW) (user_roles d) = []).
  { destruct (rowsOf (id NEW) (user_roles d)) as [|[u r0] rows] eqn:E; [reflexivity|].
    assert (Hin : (u, r0) ∈ rowsOf (id NEW) (user_roles d)) by (rewrite E; by left).
    unfold rowsOf in Hin. apply list_elem_of_In, filter_In in Hin as [Hin Hu].
    cbn [fst] in Hu. apply String.eqb_eq in Hu as ->.
    apply list_elem_of_In, has_role_elem in Hin.
    by rewrite (created_no_role n d _ _ Hd Hfresh) in Hin. }
  assert (Hone : rowsOf (id NEW) (user_roles d') = [(id NEW, r)]).
  { rewrite Hroles, rowsOf_app, Hold. unfold rowsOf. cbn [List.filter fst app].
    by rewrite String.eqb_refl. }
  assert (Hfetch : RoleDialog.fetchUserRole false (id NEW) d' = RoleDialog.roleName r).
  { unfold RoleDialog.fetchUserRole. fold (rowsOf (id NEW) (user_roles d')).
    by rewrite Hone. }
  exists r. split_and!; [exact Hone | | exact Hfetch |].
  - intros u Hu. split.
    + rewrite Hroles, rowsOf_app. unfold rowsOf at 2. cbn [List.filter fst].
      apply String.eqb_neq in Hu. rewrite String.eqb_sym, Hu. by rewrite app_nil_r.
    + rewrite Hprof. by apply lookup_insert_ne.
  - intros ->. rewrite Hfetch, Hsize in *. cbn [Nat.eqb] in Hr. by rewrite Hr.
Qed.

Lemma handle_new_user_one_role_witness :
  exists d1,
    handle_new_user OAuth firstUser emptyDatabase = inr d1
    /\ RoleDialog.fetchUserRole false "u-1" d1 = "admin".
Proof.
  destruct firstUser_created as [d1 Hd1].
  exists d1. split; [exact Hd1|].
  destruct (handle_new_user_one_role 0 emptyDatabase OAuth firstUser d1 created_none Hd1)
    as (r & _ & _ & Hfetch & Hdash).
  specialize (Hdash eq_refl). change (id firstUser) with "u-1" in *.
  rewrite Hfetch in *. by destruct r.
Defined.

End RoleStoreMore.

(** ** White space typed at the end of the content field *)

Section Typing.
Import Js Moderation.

Lemma replaceAll_prefix m repl prev y w :
  NoMatchBefore m prev y w ->
  replaceAll m repl 0 prev (y +:+ w) = y +:+ replaceAll m repl 0 (lastOr prev y) w.
Proof.
  revert prev. induction y as [|c y IH]; intros prev; [reflexivity|].
  intros [Hm Hy]. rewrite !app_cons in *. cbn [replaceAll lastOr].
  rewrite Hm. f_equal. by apply IH.
Qed.

Lemma AllChars_replaceAll P m repl k prev s :
  AllChars P repl -> AllChars P s -> AllChars P (replaceAll m repl k prev s).
Proof.
  intros Hrepl. revert k prev. induction s as [|c s IH]; intros k prev; [done|].
  intros [Hc Hs]. cbn [replaceAll]. destruct k as [|k]; [|by apply IH].
  destruct (m prev (String c s)) as [[|n]|].
  - split; [exact Hc | by apply IH].
  - apply AllChars_app; [exact Hrepl | by apply IH].
  - split; [exact Hc | by apply IH].
Qed.

Lemma NoCR_before_CRLF prev y w : NoCR y -> NoMatchBefore matchCRLF prev y w.
Proof.
  revert prev. induction y as [|c y IH]; intros prev; [done|].
  intros [Hc Hy]. split; [|by apply IH].
  rewrite app_cons. unfold matchCRLF. cbn [startsWith].
  by rewrite Ascii.eqb_sym, Hc.
Qed.

Lemma NoCR_before_CR prev y w : NoCR y -> NoMatchBefore matchCR prev y w.
Proof.
  revert prev. induction y as [|c y IH]; intros prev; [done|].
  intros [Hc Hy]. split; [|by apply IH].
  rewrite app_cons. cbn [matchCR]. by rewrite Hc.
Qed.

(** A run that stops inside [s] is not made longer by what follows [s]. *)
Lemma countWhile_stops p prev s t :
  s <> EmptyString ->
  from_option p false (lastOr prev s) = false ->
  countWhile p (s +:+ t) = countWhile p s.
Proof.
  revert prev. induction s as [|c s IH]; intros prev Hne Hlast; [done|].
  rewrite app_cons. cbn [countWhile]. destruct (p c) eqn:E; [|reflexivity].
  f_equal. destruct s as [|d s].
  - cbn [lastOr from_option] in Hlast. congruence.
  - by apply (IH (Some c)).
Qed.

Lemma NoTriple_before_blank prev y w :
  NoTriple y ->
  from_option isWhiteSpace false (lastOr None y) = false ->
  NoMatchBefore matchBlankLines prev y w.
Proof.
  assert (Hlf : forall o, from_option isWhiteSpace false o = false ->
                          from_option isLF false o = false).
  { intros [c|]; [|done]. cbn. unfold isLF.
    destruct (Ascii.eqb c LF) eqn:E; [|done]. by apply Ascii.eqb_eq in E as ->. }
  revert prev. generalize (@None ascii) as q.
  induction y as [|c y IH]; intros q prev; [done|].
  intros [Hc Hy] Hlast. split; [|by apply (IH (Some c))].
  unfold matchBlankLines.
  rewrite (countWhile_stops isLF q) by (done || by apply Hlf).
  destruct (3 <=? countWhile isLF (String c y)) eqn:E; [|reflexivity].
  apply Nat.leb_le in E. lia.
Qed.

Lemma trimStart_blank w : Blank w -> trimStart w = EmptyString.
Proof.
  induction w as [|c w IH]; [done|]. intros [Hc Hw]. cbn [trimStart]. rewrite Hc. by apply IH.
Qed.

Lemma trimEnd_blank w : Blank w -> trimEnd w = EmptyString.
Proof.
  induction w as [|c w IH]; [done|]. intros [Hc Hw]. cbn [trimEnd].
  by rewrite (IH Hw), Hc.
Qed.

Lemma trimEnd_app_blank s w : Blank w -> trimEnd (s +:+ w) = trimEnd s.
Proof.
  intros Hw. induction s as [|c s IH]; [by apply trimEnd_blank|].
  rewrite app_cons. cbn [trimEnd]. by rewrite IH.
Qed.

(** A trimmed text is empty or starts and ends with code units that are
    not white space. *)
Lemma trimmed_ends y :
  trim y = y ->
  trimStart y = y /\ trimEnd y = y
  /\ from_option isWhiteSpace false (lastOr None y) = false.
Proof.
  intros Hy.
  assert (Hs : trimStart y = y).
  { unfold trim in Hy. destruct (trimStart_head y) as [H | (c & r & H & Hc)].
    - rewrite H in Hy. cbn in Hy. by rewrite <- Hy.
    - rewrite H in Hy. destruct (trimEnd_head c r Hc) as [r' Hr]. rewrite Hr in Hy.
      rewrite <- Hy. cbn [trimStart]. by rewrite Hc. }
  assert (He : trimEnd y = y) by (unfold trim in Hy; by rewrite Hs in Hy).
  split; [exact Hs|split; [exact He|]].
  clear Hy Hs. destruct y as [|c y]; [done|].
  assert (H : forall s q, s <> EmptyString -> trimEnd s = s ->
                          from_option isWhiteSpace false (lastOr q s) = false).
  { clear. induction s as [|c s IH]; intros q Hne H; [done|].
    cbn [trimEnd] in H. destruct s as [|d s].
    - cbn [trimEnd] in H. cbn [lastOr from_option].
      destruct (isWhiteSpace c); [discriminate | reflexivity].
    - cbn [lastOr]. apply (IH (Some c)); [done|].
      destruct (trimEnd (String d s)) as [|e r] eqn:E.
      + destruct (isWhiteSpace c); discriminate.
      + congruence. }
  by apply H.
Qed.

Lemma sanitizeContent_typed_blank y w :
  NoCR y -> NoTriple y -> trim y = y -> Blank w ->
  sanitizeContent (y +:+ w) = y.
Proof.
  intros Hcr Htr Hy Hw.
  destruct (trimmed_ends y Hy) as (Hs & He & Hlast).
  assert (Hrepl : forall r, Blank r -> forall m o v, Blank v -> Blank (replaceAll m r 0 o v)).
  { intros r Hr m o v Hv. by apply AllChars_replaceAll. }
  assert (HLF : Blank sLF) by (by split).
  assert (HLF2 : Blank (sLF +:+ sLF)) by (by apply AllChars_app).
  unfold sanitizeContent, replace.
  rewrite (replaceAll_prefix matchCRLF) by (by apply NoCR_before_CRLF).
  set (w1 := replaceAll matchCRLF sLF 0 _ w).
  assert (Hw1 : Blank w1) by (by apply Hrepl).
  rewrite (replaceAll_prefix matchCR) by (by apply NoCR_before_CR).
  set (w2 := replaceAll matchCR sLF 0 _ w1).
  assert (Hw2 : Blank w2) by (by apply Hrepl).
  rewrite (replaceAll_prefix matchBlankLines) by (by apply NoTriple_before_blank).
  set (w3 := replaceAll matchBlankLines _ 0 _ w2).
  assert (Hw3 : Blank w3) by (by apply Hrepl).
  unfold trim. destruct y as [|c y].
  - change (EmptyString +:+ w3) with w3. by rewrite trimStart_blank.
  - rewrite app_cons. cbn [trimStart] in Hs |- *.
    destruct (isWhiteSpace c) eqn:E.
    + exfalso. pose proof (length_trimStart y) as Hl. rewrite Hs in Hl. cbn in Hl. lia.
    + rewrite <- app_cons. by rewrite trimEnd_app_blank.
Qed.

(** X25.  White space typed at the end of the content field is dropped:
    after any change of the field, a further change event whose value is
    the stored content followed by white space only (spaces, tabs, line
    breaks) leaves the form as it is. *)
Theorem changeContent_typed_blank value w form :
  Blank w ->
  let form1 := Dialog.changeContent value form in
  Dialog.changeContent (CreateNotice.content form1 +:+ w) form1 = form1.
Proof.
  intros Hw form1. unfold form1, Dialog.changeContent. cbn [CreateNotice.content
    CreateNotice.title CreateNotice.category_id CreateNotice.priority
    CreateNotice.expires_at CreateNotice.publish_at].
  destruct (sanitizeContent_normal value) as (Hcr & Htr & Hy).
  by rewrite sanitizeContent_typed_blank.
Qed.

Lemma changeContent_typed_blank_witness :
  Blank " " /\
  Dialog.changeContent
    (CreateNotice.content (Dialog.changeContent "a" sampleForm) +:+ " ")
    (Dialog.changeContent "a" sampleForm)
  = Dialog.changeContent "a" sampleForm.
Proof.
  split; [by split|]. apply (changeContent_typed_blank "a" " "). by split.
Defined.

End Typing.
